(** * CPA: compositional perturbation autoencoder

    A shallow embedding of [cpa/_module.py] (class [CPAModule]) and of the
    vocabulary and mask construction of [cpa/_model.py] (class [CPA],
    [setup_anndata]).

    Floating-point tensors are idealised as lists of real numbers: a 1-D
    tensor is a [list R], a 2-D tensor a list of rows.  Integer (index)
    tensors are lists of [Z].  Python dictionaries whose key set depends on
    the run are [gmap string _]; raised exceptions are values of [exn]
    carried by the [result] type. *)

From Stdlib Require Import Reals Lra Lia ZArith List String Ascii.
From stdpp Require Import base gmap strings list sorting.

Local Open Scope string_scope.

(** ** Python exceptions and fallible computations *)

Inductive exn : Type :=
| KeyError (key : string)
| IndexError
| TypeError
| AttributeError
| RuntimeError (msg : string)
| ValueError (msg : string)
| Exception (msg : string).

Inductive result (A : Type) : Type :=
| Ok (a : A)
| Raise (e : exn).

Arguments Ok {A} a.
Arguments Raise {A} e.

#[global] Instance result_ret : MRet result := @Ok.
#[global] Instance result_bind : MBind result := λ A B f r,
  match r with
  | Ok a => f a
  | Raise e => Raise e
  end.

(** [d[k]] on a dictionary. *)
Definition getitem {V : Type} (d : gmap string V) (k : string) : result V :=
  match d !! k with
  | Some v => Ok v
  | None => Raise (KeyError k)
  end.

(** A [for] loop threading an accumulator, stopping at the first exception. *)
Fixpoint foldM `{MBind M, MRet M} {A B : Type} (f : B → A → M B) (acc : B)
    (l : list A) : M B :=
  match l with
  | [] => mret acc
  | x :: l' => acc' ← f acc x; foldM f acc' l'
  end.

(** A call of [f] with explicit keywords followed by [**extra], against
    a signature without [**kwargs]: a keyword given twice, a keyword that
    names no parameter and a parameter without default that gets no value
    each raise [TypeError]; otherwise the arguments are bound by name. *)
Definition bind_keywords {V : Type} (required optional : list string)
    (explicit extra : list (string * V)) : result (gmap string V) :=
  if existsb (λ kv, bool_decide (kv.1 ∈ map fst explicit)) extra
  then Raise TypeError
  else
    let kwargs := (explicit ++ extra)%list in
    if negb (forallb (λ kv, bool_decide (kv.1 ∈ (required ++ optional)%list))
               kwargs)
    then Raise TypeError
    else if negb (forallb (λ p, bool_decide (p ∈ map fst kwargs)) required)
    then Raise TypeError
    else Ok (list_to_map kwargs).

(** ** Tensors *)

Abbreviation vec := (list R) (only parsing).
Abbreviation mat := (list (list R)) (only parsing).
Abbreviation ivec := (list Z) (only parsing).
Abbreviation imat := (list (list Z)) (only parsing).

(** The values found in a batch ([tensors]): float or integer 2-D tensors. *)
Inductive tensor : Type :=
| FloatT (m : mat)
| LongT (m : imat).

Definition as_float (t : tensor) : result mat :=
  match t with
  | FloatT m => Ok m
  | LongT _ => Raise TypeError
  end.

(** [float] to [int] as [t.long()] converts: the fraction is dropped,
    towards zero. *)
Definition trunc (x : R) : Z :=
  if Rle_dec 0%R x then Int_part x else (- Int_part (- x)%R)%Z.

(** The index tensors are converted with [t.long()] where the code uses
    them (lines 238, 361 and 365 of [_module.py]): an integer tensor is
    taken as it is, a float tensor loses its fractions. *)
Definition as_long (t : tensor) : result imat :=
  match t with
  | LongT m => Ok m
  | FloatT m => Ok (map (map trunc) m)
  end.

(** A 1-D array with its dtype: what
    [t.detach().cpu().numpy().ravel()] gives for a batch tensor. *)
Inductive array : Type :=
| FloatA (v : vec)
| LongA (v : ivec).

Definition numpy_ravel (t : tensor) : array :=
  match t with
  | FloatT m => FloatA (concat m)
  | LongT m => LongA (concat m)
  end.

Definition array_length (y : array) : nat :=
  match y with
  | FloatA v => length v
  | LongA v => length v
  end.

#[global] Instance R_eq_dec : EqDecision R := Req_dec_T.

Local Open Scope R_scope.

Module Torch.

(** Broadcasting of a binary operation along one dimension: sizes must be
    equal, or one of them is 1. *)
Definition bvec (f : R → R → R) (u v : vec) : result vec :=
  if (length u =? length v)%nat then Ok (zip_with f u v)
  else match u, v with
       | [a], _ => Ok (map (f a) v)
       | _, [b] => Ok (map (λ a, f a b) u)
       | _, _ =>
           Raise (RuntimeError "The size of tensor a must match the size of tensor b")
       end.

(** 2-D with 1-D: the 1-D operand is read as a single row. *)
Definition bmat_vec (f : R → R → R) (m : mat) (v : vec) : result mat :=
  mapM (λ row, bvec f row v) m.

(** 2-D with 2-D. *)
Fixpoint bzip (f : R → R → R) (a b : mat) : result mat :=
  match a, b with
  | ra :: a', rb :: b' =>
      r ← bvec f ra rb; rest ← bzip f a' b'; Ok (r :: rest)
  | _, _ => Ok []
  end.

Definition bmat (f : R → R → R) (a b : mat) : result mat :=
  if (length a =? length b)%nat then bzip f a b
  else match a, b with
       | [ra], _ => mapM (λ rb, bvec f ra rb) b
       | _, [rb] => mapM (λ ra, bvec f ra rb) a
       | _, _ =>
           Raise (RuntimeError "The size of tensor a must match the size of tensor b")
       end.

Definition add (a b : mat) : result mat := bmat Rplus a b.
Definition sub (a b : mat) : result mat := bmat Rminus a b.
Definition div (a b : mat) : result mat := bmat Rdiv a b.
Definition add_vec (a : mat) (v : vec) : result mat := bmat_vec Rplus a v.

Definition map_mat (f : R → R) (m : mat) : mat := map (map f) m.
Definition log (m : mat) : mat := map_mat ln m.
Definition div_scalar (m : mat) (c : R) : mat := map_mat (λ x, x / c) m.
Definition mul_scalar (m : mat) (c : R) : mat := map_mat (λ x, x * c) m.
Definition pow (m : mat) (n : nat) : mat := map_mat (λ x, x ^ n) m.

Definition sum_vec (v : vec) : R := fold_right Rplus 0 v.

(** [t.mean()] of a 2-D tensor: the sum of all elements over their number. *)
Definition numel (m : mat) : nat := length (concat m).
Definition mean (m : mat) : R := sum_vec (concat m) / INR (numel m).

(** [t.mean()] of a 1-D array. *)
Definition mean_vec (v : vec) : R := sum_vec v / INR (length v).

(** [torch.cat(ts, 0)] of 2-D tensors with the same number of columns. *)
Definition cat0 (ts : list mat) : result mat :=
  match ts with
  | [] => Raise (RuntimeError "torch.cat(): expected a non-empty list of Tensors")
  | _ => Ok (concat ts)
  end.

(** [t.sum(0)] of a 2-D tensor with [ncols] columns: the column sums. *)
Definition sum0 (ncols : nat) (m : mat) : vec :=
  fold_left (zip_with Rplus) m (repeat 0 ncols).

(** [nn.Embedding(weight)(idx)]: one row of [weight] per index. *)
Definition embedding (weight : mat) (idx : ivec) : result mat :=
  mapM (λ i : Z,
          if (i <? 0)%Z then Raise IndexError
          else match weight !! Z.to_nat i with
               | Some row => Ok row
               | None => Raise IndexError
               end) idx.

(** [t.view(r, c)] only changes the shape; it fails when the element
    counts differ. *)
Definition view_check (m : mat) (r c : nat) : result unit :=
  if (numel m =? r * c)%nat then Ok tt
  else Raise (RuntimeError "shape is invalid for input size").

(** [t.view(-1,)] / [t.ravel()] of an integer tensor. *)
Definition ravel (m : imat) : ivec := concat m.

End Torch.

(** ** [cpa/_module.py]: class [CPAModule] *)

Module CPAModule.

Section Module.

(** The count-likelihood distribution objects built by [DecoderNB]. *)
Context {Distribution : Type}.

(** [_CE_CONSTANTS.X_KEY]: the batch key of the expression matrix. *)
Variable X_KEY : string.

Inductive encoder_t : Type :=
| Encoder (f : mat → mat * mat * mat)
| EncoderFC (f : mat → mat).

Inductive decoder_t : Type :=
| DecoderGauss (f : mat → mat * mat)
| DecoderNB (f : mat → vec → Distribution).

(** The sub-networks and initial parameters that the constructor obtains
    from the deep-learning substrate ([scvi.nn], [torch.nn] and the
    package's decoders), each with its freshly initialised weights.  A
    network stands for the function it computes in evaluation mode
    (dropout inactive) on inputs of the width it was built for, with the
    module and the batch on one device; what torch raises on inputs of
    another width is outside these functions. *)
Record substrate : Type := {
  new_Encoder : nat → nat → mat → mat * mat * mat;
  new_FCLayers : string → nat → nat → mat → mat;
  new_DecoderGauss : nat → nat → mat → mat * mat;
  new_DecoderNB : nat → nat → mat → vec → Distribution;
  new_DrugNetwork : nat → nat → string → result (imat → mat → result mat);
  new_Embedding : string → nat → nat → mat;
  new_CrossEntropyLoss : mat → ivec → result R;
  randn : nat → vec;
}.

(** [self]: the attributes set by [__init__]. [covars_encoder] maps each
    covariate name to its categories, in insertion order. *)
Record t : Type := {
  n_genes : nat;
  n_drugs : nat;
  n_latent : nat;
  loss_ae : string;
  doser_type : string;
  variational : bool;
  covars_encoder : list (string * list string);
  encoder : encoder_t;
  l_encoder : option (mat → mat);
  decoder : decoder_t;
  px_r : option vec;
  drug_network : imat → mat → result mat;
  drugs_classifier : mat → mat;
  covars_embedding : gmap string mat;
  covars_classifiers : gmap string (mat → mat);
  adv_loss_covariates : mat → ivec → result R;
  adv_loss_drugs : mat → ivec → result R;
}.

(** [x in [...]] on strings. *)
Definition str_in (x : string) (l : list string) : bool :=
  existsb (String.eqb x) l.

(** [{key: f(key, unique_covars) for key, unique_covars in d.items()}] *)
Definition dict_comp {V : Type} (f : string → list string → V)
    (d : list (string * list string)) : gmap string V :=
  fold_left (λ m kv, <[kv.1 := f kv.1 kv.2]> m) d ∅.

Definition __init__ (sub : substrate) (n_genes n_drugs : nat)
    (covars_encoder : list (string * list string)) (n_latent : nat)
    (loss_ae doser_type : string) (variational : bool) : result t :=
  let encoder :=
    if variational then Encoder (new_Encoder sub n_genes n_latent)
    else EncoderFC (new_FCLayers sub "encoder" n_genes n_latent) in
  let l_encoder :=
    if String.eqb loss_ae "nb"
    then Some (new_FCLayers sub "l_encoder" n_genes 1) else None in
  '(decoder, px_r) ←
    (if str_in loss_ae ["gauss"; "mse"] then
       Ok (DecoderGauss (new_DecoderGauss sub n_latent n_genes), None)
     else if String.eqb loss_ae "nb" then
       Ok (DecoderNB (new_DecoderNB sub n_latent n_genes),
           Some (randn sub n_genes))
     else Raise (Exception "Invalid Loss function for Autoencoder"));
  drug_network ← new_DrugNetwork sub n_drugs n_latent doser_type;
  Ok {| n_genes := n_genes;
        n_drugs := n_drugs;
        n_latent := n_latent;
        loss_ae := loss_ae;
        doser_type := doser_type;
        variational := variational;
        covars_encoder := covars_encoder;
        encoder := encoder;
        l_encoder := l_encoder;
        decoder := decoder;
        px_r := px_r;
        drug_network := drug_network;
        drugs_classifier := new_FCLayers sub "drugs_classifier" n_latent n_drugs;
        covars_embedding :=
          dict_comp (λ key unique_covars,
                       new_Embedding sub key (length unique_covars) n_latent)
                    covars_encoder;
        covars_classifiers :=
          dict_comp (λ key unique_covars,
                       new_FCLayers sub key n_latent (length unique_covars))
                    covars_encoder;
        adv_loss_covariates := new_CrossEntropyLoss sub;
        adv_loss_drugs := new_CrossEntropyLoss sub |}.

(** *** [inference] *)

Record inference_outputs : Type := {
  latent : mat;
  latent_basal : mat;
  dist_qz : option (mat * mat);
  library : option mat;
  covars_dict : gmap string ivec;
}.

Definition inference (self : t) (genes : mat) (drugs : imat) (doses : mat)
    (covars_dict : gmap string ivec) : result inference_outputs :=
  let batch_size := length genes in
  let x_ := genes in
  '(dist_qzbasal, latent_basal) ←
    (match variational self, encoder self with
     | true, Encoder enc =>
         let '(qz_m, qz_v, z) := enc x_ in
         Ok (Some (qz_m, Torch.map_mat sqrt qz_v), z)
     | false, EncoderFC enc => Ok (None, enc x_)
     | _, _ => Raise TypeError
     end);
  library ←
    (if String.eqb (loss_ae self) "nb" then
       match l_encoder self with
       | Some enc => Ok (Some (enc x_))
       | None => Raise AttributeError
       end
     else Ok None);
  latent_covariates ←
    foldM (λ acc (kv : string * list string),
             let covar := kv.1 in
             emb ← getitem (covars_embedding self) covar;
             idx ← getitem covars_dict covar;
             latent_covar_i ← Torch.embedding emb idx;
             Torch.view_check latent_covar_i batch_size (n_latent self);;
             Ok ((acc ++ [latent_covar_i])%list))
          [] (covars_encoder self);
  stacked ← Torch.cat0 latent_covariates;
  let latent_covariates := Torch.sum0 (n_latent self) stacked in
  latent_treatment ← drug_network self drugs doses;
  with_covs ← Torch.add_vec latent_basal latent_covariates;
  latent ← Torch.add with_covs latent_treatment;
  Ok {| latent := latent;
        latent_basal := latent_basal;
        dist_qz := dist_qzbasal;
        library := library;
        covars_dict := covars_dict |}.

(** *** [generative] *)

(** The values of the [generative_outputs] dictionary. *)
Inductive gen_value : Type :=
| GTensor (m : mat)
| GDist (d : Distribution)
| GPreds (d : gmap string mat).

Definition gen_tensor (v : gen_value) : result mat :=
  match v with
  | GTensor m => Ok m
  | _ => Raise TypeError
  end.

Definition gen_preds (v : gen_value) : result (gmap string mat) :=
  match v with
  | GPreds d => Ok d
  | _ => Raise TypeError
  end.

Definition generative (self : t) (latent latent_basal : mat)
  : result (gmap string gen_value) :=
  let drugs_pred := drugs_classifier self latent_basal in
  covars_pred ←
    foldM (λ acc (kv : string * list string),
             let covar := kv.1 in
             clf ← getitem (covars_classifiers self) covar;
             Ok (<[covar := clf latent_basal]> acc))
          (∅ : gmap string mat) (covars_encoder self);
  if String.eqb (loss_ae self) "nb" then
    match decoder self, px_r self with
    | DecoderNB dec, Some r =>
        let dist_px := dec latent r in
        Ok (<["covars_pred" := GPreds covars_pred]>
            (<["drugs_pred" := GTensor drugs_pred]>
             (<["dist_px" := GDist dist_px]> ∅)))
    | _, _ => Raise TypeError
    end
  else
    match decoder self with
    | DecoderGauss dec =>
        let '(means, variances) := dec latent in
        Ok (<["covars_pred" := GPreds covars_pred]>
            (<["drugs_pred" := GTensor drugs_pred]>
             (<["variances" := GTensor variances]>
              (<["means" := GTensor means]> ∅))))
    | DecoderNB _ => Raise TypeError
    end.

(** *** [loss] *)

Definition loss (self : t) (tensors : gmap string tensor)
    (generative_outputs : gmap string gen_value) : result R :=
  x ← getitem tensors X_KEY ≫= as_float;
  means ← getitem generative_outputs "means" ≫= gen_tensor;
  variances ← getitem generative_outputs "variances" ≫= gen_tensor;
  if str_in (loss_ae self) ["gauss"; "mse"] then
    let term1 := Torch.div_scalar (Torch.log variances) 2 in
    diff ← Torch.sub x means;
    term2 ← Torch.div (Torch.pow diff 2) (Torch.mul_scalar variances 2);
    total ← Torch.add term1 term2;
    let reconstruction_loss := Torch.mean total in
    Ok reconstruction_loss
  else Raise (Exception "Invalid Loss function for CPA").

(** *** [adversarial_loss] *)

(** [torch.autograd.grad(outputs.sum(), inputs, create_graph=True)[0]]:
    the gradient the automatic-differentiation substrate returns. *)
Variable autograd_grad : mat → mat → result mat.

Definition grad_penalty (outputs inputs : mat) : result R :=
  g ← autograd_grad outputs inputs;
  Ok (Torch.mean (Torch.pow g 2)).

(** Python's [sum(xs)]: left to right, starting from 0. *)
Definition py_sum (xs : list R) : R := fold_left Rplus xs 0.

Definition adversarial_loss (self : t) (tensors : gmap string tensor)
    (inference_outputs : inference_outputs)
    (generative_outputs : gmap string gen_value) : result (gmap string R) :=
  drug_name ← getitem tensors "drug_name" ≫= as_long;
  let drugs := Torch.ravel drug_name in
  let latent_basal := latent_basal inference_outputs in
  let covars_dict := covars_dict inference_outputs in
  drugs_pred ← getitem generative_outputs "drugs_pred" ≫= gen_tensor;
  covars_pred ← getitem generative_outputs "covars_pred" ≫= gen_preds;
  let keys := map fst (covars_encoder self) in
  let adv_results : gmap string R := ∅ in
  adv_results ←
    foldM (λ (adv_results : gmap string R) covar,
             pred ← getitem covars_pred covar;
             target ← getitem covars_dict covar;
             l ← adv_loss_covariates self pred target;
             Ok (<["adv_" +:+ covar := l]> adv_results))
          adv_results keys;
  l ← adv_loss_drugs self drugs_pred drugs;
  let adv_results := <["adv_drugs" := l]> adv_results in
  adv_drugs ← getitem adv_results "adv_drugs";
  terms ← mapM (λ key, getitem adv_results ("adv_" +:+ key)) keys;
  let adv_results := <["adv_loss" := adv_drugs + py_sum terms]> adv_results in
  adv_results ←
    foldM (λ (adv_results : gmap string R) covar,
             pred ← getitem covars_pred covar;
             p ← grad_penalty pred latent_basal;
             Ok (<["penalty_" +:+ covar := p]> adv_results))
          adv_results keys;
  p ← grad_penalty drugs_pred latent_basal;
  let adv_results := <["penalty_drugs" := p]> adv_results in
  penalty_drugs ← getitem adv_results "penalty_drugs";
  terms ← mapM (λ covar, getitem adv_results ("penalty_" +:+ covar)) keys;
  let adv_results :=
    <["penalty_adv" := penalty_drugs + py_sum terms]> adv_results in
  Ok adv_results.

(** *** [disentanglement] *)

(** [StandardScaler().fit_transform] and [cross_val_score] with a
    logistic-regression classifier and the balanced-accuracy scorer are
    scikit-learn's; [cross_val_score X y cv] is the array of fold scores,
    or the exception that scikit-learn raises (a [ValueError] when it
    cannot make [cv] stratified folds of [y]). *)
Variable StandardScaler_fit_transform : mat → mat.
Variable cross_val_score : mat → array → nat → result (list R).

(** One invocation of [cross_val_score], as seen from the caller. *)
Record cv_call : Type := { cv_X : mat; cv_y : array; cv_folds : nat }.

(** Computations that may raise and that record the cross-validation
    fits they request. *)
Definition sk (A : Type) : Type := list cv_call → result (A * list cv_call).

#[global] Instance sk_ret : MRet sk := λ A a log, Ok (a, log).
#[global] Instance sk_bind : MBind sk := λ A B f m log,
  match m log with
  | Ok (a, log') => f a log'
  | Raise e => Raise e
  end.

Definition lift {A : Type} (r : result A) : sk A := λ log,
  match r with
  | Ok a => Ok (a, log)
  | Raise e => Raise e
  end.

(** [cross_val_score(classifier, X, y, scoring=..., cv=cv).mean()] *)
Definition cross_val_mean (X : mat) (y : array) (cv : nat) : sk R := λ log,
  match cross_val_score X y cv with
  | Ok scores =>
      Ok (Torch.mean_vec scores,
          (log ++ [{| cv_X := X; cv_y := y; cv_folds := cv |}])%list)
  | Raise e => Raise e
  end.

(** [len(np.unique(y))] *)
Definition n_unique (y : array) : nat :=
  match y with
  | FloatA v => length (remove_dups v)
  | LongA v => length (remove_dups v)
  end.

Definition disentanglement (self : t) (tensors : gmap string tensor)
    (inference_outputs : inference_outputs) : sk (R * R) :=
  let latent_basal := latent_basal inference_outputs in
  let latent := latent inference_outputs in
  drug_names ← lift (getitem tensors "drug_name");
  pert_basal_scores ←
    cross_val_mean (StandardScaler_fit_transform latent_basal)
      (numpy_ravel drug_names)
      (Nat.min 5 (n_unique (numpy_ravel drug_names)));
  pert_basal_scores ←
    foldM (λ (pert_basal_scores : R) (kv : string * list string),
             if (1 <? length kv.2)%nat then
               target_covars ← lift (getitem tensors kv.1);
               s ← cross_val_mean (StandardScaler_fit_transform latent_basal)
                     (numpy_ravel target_covars)
                     (Nat.min 5 (n_unique (numpy_ravel target_covars)));
               mret (pert_basal_scores + s)
             else mret pert_basal_scores)
          pert_basal_scores (covars_encoder self);
  pert_scores ←
    cross_val_mean (StandardScaler_fit_transform latent)
      (numpy_ravel drug_names) 5;
  pert_scores ←
    foldM (λ (pert_scores : R) (kv : string * list string),
             if (1 <? length kv.2)%nat then
               target_covars ← lift (getitem tensors kv.1);
               s ← cross_val_mean (StandardScaler_fit_transform latent)
                     (numpy_ravel target_covars)
                     (Nat.min 5 (n_unique (numpy_ravel target_covars)));
               mret (pert_scores + s)
             else mret pert_scores)
          pert_scores (covars_encoder self);
  mret (pert_basal_scores, pert_scores).

(** *** [_get_inference_input], [_get_generative_input] and the calls they
    feed *)

(** The keyword arguments of [inference]. *)
Record inference_input : Type := {
  input_genes : mat;
  input_drugs : imat;
  input_doses : mat;
  input_covars_dict : gmap string ivec;
}.

Definition _get_inference_input (self : t) (tensors : gmap string tensor)
  : result inference_input :=
  x ← getitem tensors X_KEY ≫= as_float;
  drugs ← getitem tensors "drug_name" ≫= as_long;
  doses ← getitem tensors "dose_value" ≫= as_float;
  covars_dict ←
    foldM (λ (covars_dict : gmap string ivec) (kv : string * list string),
             let covar := kv.1 in
             t ← getitem tensors covar ≫= as_long;
             let encoded_covars := Torch.ravel t in
             Ok (<[covar := encoded_covars]> covars_dict))
          ∅ (covars_encoder self);
  Ok {| input_genes := x;
        input_drugs := drugs;
        input_doses := doses;
        input_covars_dict := covars_dict |}.

(** The values of the dictionary are tensors or, for a missing library,
    [None]. *)
Definition _get_generative_input (self : t) (tensors : gmap string tensor)
    (inference_outputs : inference_outputs)
  : result (gmap string (option mat)) :=
  let input_dict : gmap string (option mat) := ∅ in
  let latent := latent inference_outputs in
  let latent_basal := latent_basal inference_outputs in
  let input_dict :=
    if String.eqb (loss_ae self) "nb"
    then <["library" := library inference_outputs]> input_dict
    else input_dict in
  foldM (λ (covars_dict : gmap string ivec) (kv : string * list string),
           let covar := kv.1 in
           val ← getitem tensors covar ≫= as_long;
           Ok (<[covar := Torch.ravel val]> covars_dict))
        ∅ (covars_encoder self);;
  let input_dict := <["latent" := Some latent]> input_dict in
  let input_dict := <["latent_basal" := Some latent_basal]> input_dict in
  Ok input_dict.

(** [self.generative] called with [**input_dict]: the parameters of [generative] are
    [latent] and [latent_basal], both without default. *)
Definition generative_parameters : list string := ["latent"; "latent_basal"].

Definition call_generative (self : t) (input_dict : gmap string (option mat))
  : result (gmap string gen_value) :=
  args ← bind_keywords generative_parameters [] [] (map_to_list input_dict);
  latent ← getitem args "latent";
  latent_basal ← getitem args "latent_basal";
  match latent, latent_basal with
  | Some latent, Some latent_basal => generative self latent latent_basal
  | _, _ => Raise TypeError
  end.

Definition get_drug_embeddings (self : t) (tensors : gmap string tensor)
  : result mat :=
  inputs ← _get_inference_input self tensors;
  let drugs := input_drugs inputs in
  let doses := input_doses inputs in
  drug_network self drugs doses.

End Module.

End CPAModule.

(** ** [cpa/_model.py]: class [CPA], [setup_anndata] *)

Module CPA.

(** [s.split(sep)] for a one-character separator. *)
Fixpoint split (sep : ascii) (s : string) : list string :=
  match s with
  | EmptyString => [EmptyString]
  | String c s' =>
      let rest := split sep s' in
      if Ascii.eqb c sep then EmptyString :: rest
      else match rest with
           | tok :: toks => String c tok :: toks
           | [] => [String c EmptyString]
           end
  end.

(** [sorted(l)] on strings. *)
Definition sorted (l : list string) : list string := merge_sort String.le l.

(** [np.unique(a)]: the sorted distinct values. *)
Definition np_unique (a : list string) : list string :=
  sorted (remove_dups a).

(** [{x: i for i, x in enumerate(l)}] *)
Definition enumerate_dict (l : list string) : gmap string nat :=
  fold_left (λ m ix, <[ix.2 := ix.1]> m) (imap pair l) ∅.

(** The names collected by the loop over [np.unique(perturbations)]. *)
Definition collect_names (perturbations : list string) (control_group : string)
  : gset string :=
  fold_left
    (λ perts_names_unique d,
       fold_left (λ acc i,
                    if bool_decide (i ≠ control_group) then {[i]} ∪ acc
                    else acc)
                 (split "+" d) perts_names_unique)
    (np_unique perturbations) ∅.

(** An insertion-ordered dictionary kept as a class attribute: its keys in
    order and its contents. *)
Definition ordered_dict : Type := list string * gmap string nat.

Record vocabulary : Type := {
  perts_names_unique : list string;
  pert_encoder : gmap string nat;
  PADDING_IDX : nat;
}.

(** Lines 207-221 of [setup_anndata]; [registry_padding_idx] is the value
    of [CPA_REGISTRY_KEYS.PADDING_IDX] before the call. *)
Definition build_pert_encoder (cls_pert_encoder : option ordered_dict)
    (registry_padding_idx : nat) (perturbations : list string)
    (control_group : string) : vocabulary :=
  match cls_pert_encoder with
  | None =>
      let perts_names_unique := collect_names perturbations control_group in
      let perts_names_unique :=
        (["<PAD>"; control_group] ++ sorted (elements perts_names_unique))%list in
      {| perts_names_unique := perts_names_unique;
         pert_encoder := enumerate_dict perts_names_unique;
         PADDING_IDX := 0 |}
  | Some (keys, pert_encoder) =>
      {| perts_names_unique := keys;
         pert_encoder := pert_encoder;
         PADDING_IDX := registry_padding_idx |}
  end.

(** [var_names.isin(values).astype(int)] *)
Definition isin (var_names values : list string) : list Z :=
  map (λ g, if bool_decide (g ∈ values) then 1%Z else 0%Z) var_names.

(** The two lookup tables built by the loop over [cov_cond_unique]. *)
Definition deg_tables (var_names : list string)
    (uns_deg : gmap string (list string)) (n_deg_r2 : nat)
    (cov_cond_unique : list string)
  : gmap string (list Z) * gmap string (list Z) :=
  fold_left
    (λ maps cov_cond,
       let '(cov_cond_map, cov_cond_map_r2) := maps in
       match uns_deg !! cov_cond with
       | Some degs =>
           let mask_hvg := isin var_names degs in
           let mask_hvg_r2 := isin var_names (take n_deg_r2 degs) in
           (<[cov_cond := mask_hvg]> cov_cond_map,
            <[cov_cond := mask_hvg_r2]> cov_cond_map_r2)
       | None =>
           let no_mask := repeat 1%Z (length var_names) in
           (<[cov_cond := no_mask]> cov_cond_map,
            <[cov_cond := no_mask]> cov_cond_map_r2)
       end)
    cov_cond_unique (∅, ∅).

(** [np.vstack] of a sequence of rows. *)
Definition vstack (rows : list (list Z)) : result (list (list Z)) :=
  match rows with
  | [] => Raise (ValueError "need at least one array to concatenate")
  | _ => Ok rows
  end.

(** The [if deg_uns_key:] block of [setup_anndata]: [obs_cat] is the column
    [adata.obs[deg_uns_cat_key]] as strings, [uns_deg] is
    [adata.uns[deg_uns_key]], [kw_n_deg_r2] the optional keyword argument;
    the result is [adata.obsm] after the two stores. *)
Definition setup_deg_masks (var_names : list string)
    (uns_deg : gmap string (list string)) (kw_n_deg_r2 : option nat)
    (obs_cat : list string) (obsm : gmap string (list (list Z)))
  : result (gmap string (list (list Z))) :=
  let n_deg_r2 := default 10%nat kw_n_deg_r2 in
  let cov_cond_unique := np_unique obs_cat in
  let '(cov_cond_map, cov_cond_map_r2) :=
    deg_tables var_names uns_deg n_deg_r2 cov_cond_unique in
  mask ← mapM (λ x, getitem cov_cond_map x) obs_cat ≫= vstack;
  mask_r2 ← mapM (λ x, getitem cov_cond_map x) obs_cat ≫= vstack;
  let DEG_MASK := "deg_mask" in
  let DEG_MASK_R2 := "deg_mask_r2" in
  Ok (<[DEG_MASK_R2 := mask_r2]> (<[DEG_MASK := mask]> obsm)).

(** [sep.join(l)] *)
Fixpoint join (sep : string) (l : list string) : string :=
  match l with
  | [] => EmptyString
  | [x] => x
  | x :: l' => x +:+ sep +:+ join sep l'
  end.

(** Line 191: the dosage string given to a cell when no [dosage_key] is
    supplied, ['+'.join(['1.0' for _ in x.split('+')])]. *)
Definition default_dosage (x : string) : string :=
  join "+" (map (λ _, "1.0") (split "+" x)).

(** [np.where(np.isin(names, values))[0]], counting positions from [k]. *)
Fixpoint where_isin_from (k : nat) (names values : list string) : list nat :=
  match names with
  | [] => []
  | x :: names' =>
      if bool_decide (x ∈ values) then k :: where_isin_from (S k) names' values
      else where_isin_from (S k) names' values
  end.

Definition where_isin (names values : list string) : list nat :=
  where_isin_from 0 names values.

(** Lines 225-229: the row of [pert_map] for one condition. *)
Definition pert_row (perts_names_unique : list string) (PADDING_IDX : nat)
    (max_comb_len : nat) (condition : string) : list nat :=
  let perts_list := where_isin perts_names_unique (split "+" condition) in
  (perts_list ++ repeat PADDING_IDX (max_comb_len - length perts_list))%list.

(** [np.vstack] of rows that must have one length. *)
Definition np_vstack {A : Type} (rows : list (list A)) : result (list (list A)) :=
  match rows with
  | [] => Raise (ValueError "need at least one array to concatenate")
  | row :: rows' =>
      if forallb (λ r, (length r =? length row)%nat) rows' then Ok rows
      else Raise (ValueError "all the input array dimensions except for the concatenation axis must match exactly")
  end.

(** Lines 223-241: [pert_map] and the array stored under
    [CPA_REGISTRY_KEYS.PERTURBATIONS]. *)
Definition pert_map (perts_names_unique : list string) (PADDING_IDX : nat)
    (max_comb_len : nat) (perturbations : list string)
  : gmap string (list nat) :=
  fold_left
    (λ pert_map condition,
       <[condition := pert_row perts_names_unique PADDING_IDX max_comb_len
                        condition]> pert_map)
    perturbations ∅.

Definition data_perts (cls_pert_encoder : option ordered_dict)
    (registry_padding_idx : nat) (perturbations : list string)
    (control_group : string) (max_comb_len : nat) : result (list (list nat)) :=
  let v := build_pert_encoder cls_pert_encoder registry_padding_idx
             perturbations control_group in
  let pert_map := pert_map (perts_names_unique v) (PADDING_IDX v) max_comb_len
                    perturbations in
  mapM (λ x, getitem pert_map x) perturbations ≫= np_vstack.

Section Dosages.

(** Python's [float(s)] on a string: the number, or [ValueError]. *)
Variable float : string → result R.

(** Lines 233-236: the row of [dose_map] for one dosage string. *)
Definition dose_row (max_comb_len : nat) (dosage_str : string) : result (list R) :=
  dosages_list ← mapM float (split "+" dosage_str);
  Ok (dosages_list ++ repeat 0%R (max_comb_len - length dosages_list))%list.

(** Lines 186-196 and 231-246: the dosage strings of the cells and the
    array stored under [CPA_REGISTRY_KEYS.PERTURBATIONS_DOSAGES];
    [obs_dosages] is the column [adata.obs[dosage_key]] when a
    [dosage_key] is given. *)
Definition dosages_of (perturbations : list string)
    (obs_dosages : option (list string)) : list string :=
  match obs_dosages with
  | None => map default_dosage perturbations
  | Some dosages => dosages
  end.

Definition data_perts_dosages (perturbations : list string)
    (obs_dosages : option (list string)) (max_comb_len : nat)
  : result (list (list R)) :=
  let dosages := dosages_of perturbations obs_dosages in
  dose_map ←
    foldM (λ (dose_map : gmap string (list R)) dosage_str,
             row ← dose_row max_comb_len dosage_str;
             Ok (<[dosage_str := row]> dose_map))
          ∅ dosages;
  mapM (λ x, getitem dose_map x) dosages ≫= np_vstack.

End Dosages.

(** The parameters of [CPAModule.__init__] after [self]: those without a
    default and those with one. *)
Definition CPAModule_required : list string :=
  ["n_genes"; "n_drugs"; "covars_encoder"].

Definition CPAModule_optional : list string :=
  ["n_latent"; "loss_ae"; "doser_type"; "output_activation";
   "autoencoder_width"; "autoencoder_depth"; "adversary_width";
   "adversary_depth"; "dosers_width"; "dosers_depth"; "use_batch_norm";
   "use_layer_norm"; "dropout_rate"; "variational"; "seed"].

(** Lines 104-109 of [CPA.__init__]: the binding of the call
    [CPAModule] with the keywords [n_genes], [n_perts], [covars_encoder] and
    [**hyper_params] to the parameters of [CPAModule.__init__]. *)
Definition module_call {V : Type} (n_vars n_perts covars_encoder : V)
    (hyper_params : list (string * V)) : result (gmap string V) :=
  bind_keywords CPAModule_required CPAModule_optional
    [("n_genes", n_vars); ("n_perts", n_perts);
     ("covars_encoder", covars_encoder)]
    hyper_params.

End CPA.

(** ** Specification-side definitions *)

Module Spec.

Import CPAModule.

Definition shape (b g : nat) (m : mat) : Prop :=
  length m = b ∧ Forall (λ row, length row = g) m.

Definition at2 (m : mat) (i j : nat) : R := nth j (nth i m []) 0.

Definition sum_upto (n : nat) (f : nat → R) : R :=
  fold_right Rplus 0 (map f (seq 0 n)).

(** Section 4.6: [0.5*log(variance) + (x-mean)^2/(2*variance)]. *)
Definition gaussian_nll (x mean variance : R) : R :=
  0.5 * ln variance + (x - mean) * (x - mean) / (2 * variance).

(** Section 4.6: the average over all batch x gene elements. *)
Definition mean_gaussian_nll (b g : nat) (x means variances : mat) : R :=
  sum_upto b (λ i,
    sum_upto g (λ j,
      gaussian_nll (at2 x i j) (at2 means i j) (at2 variances i j)))
  / INR (b * g).

Section Latent.

Context {Distribution : Type}.

(** The embedding of cell [i]'s category of covariate [covar]. *)
Definition covariate_embedding (self : t (Distribution := Distribution))
    (covars_dict : gmap string ivec) (covar : string) (i : nat) : vec :=
  default []
    (emb ← covars_embedding self !! covar;
     idx ← covars_dict !! covar;
     z ← idx !! i;
     emb !! Z.to_nat z).

(** Section 3: [latent = latent_basal + sum(covariate_embeddings) +
    treatment_embedding], for the cell in row [i]. *)
Definition additive_latent_row (self : t (Distribution := Distribution))
    (covars_dict : gmap string ivec) (i : nat) (basal_i treatment_i : vec)
  : vec :=
  let covariates_i :=
    fold_left
      (λ acc (kv : string * list string),
         zip_with Rplus acc (covariate_embedding self covars_dict kv.1 i))
      (covars_encoder self) (repeat 0 (n_latent self)) in
  zip_with Rplus (zip_with Rplus basal_i covariates_i) treatment_i.

Definition additive_latent (self : t (Distribution := Distribution))
    (covars_dict : gmap string ivec) (latent_basal latent_treatment : mat)
  : mat :=
  imap (λ i basal_i,
          additive_latent_row self covars_dict i basal_i
            (default [] (latent_treatment !! i)))
       latent_basal.

End Latent.

(** The sum of a list of scalars. *)
Definition total (xs : list R) : R := fold_right Rplus 0 xs.












End Spec.

(** ** Instances *)

Module Examples.

Import CPAModule.

Definition zeros (rows cols : nat) : mat := repeat (repeat 0 cols) rows.

(** A substrate whose networks output zeros, whose decoder variance is 1,
    whose embedding row [i] is constantly [i + 1] and whose cross-entropy
    is constantly 1. *)
Definition sub : substrate (Distribution := unit) :=
  {| new_Encoder := λ n_in n_out x,
       (zeros (length x) n_out, zeros (length x) n_out, zeros (length x) n_out);
     new_FCLayers := λ _ n_in n_out x, zeros (length x) n_out;
     new_DecoderGauss := λ n_in n_out z,
       (zeros (length z) n_out, repeat (repeat 1 n_out) (length z));
     new_DecoderNB := λ _ _ _ _, tt;
     new_DrugNetwork := λ n_drugs n_latent _,
       Ok (λ drugs doses, Ok (zeros (length drugs) n_latent));
     new_Embedding := λ _ len n, map (λ i, repeat (INR (S i)) n) (seq 0 len);
     new_CrossEntropyLoss := λ _ _, Ok 1;
     randn := λ n, repeat 0 n |}.

(** Two cells, one gene, one latent dimension, one covariate with two
    categories; the first cell is of category 0, the second of category 1. *)
Definition genes2 : mat := [[0]; [0]].
Definition drugs2 : imat := [[0%Z]; [1%Z]].
Definition doses2 : mat := [[0]; [1]].
Definition covars2 (covar : string) : gmap string ivec :=
  {[covar := [0%Z; 1%Z]]}.

Definition batch2 (X_KEY covar : string) : gmap string tensor :=
  <[covar := LongT [[0%Z]; [1%Z]]]>
    (<["dose_value" := FloatT doses2]>
       (<["drug_name" := LongT drugs2]>
          (<[X_KEY := FloatT genes2]> ∅))).

(** The gradient oracle of the instances: a constant gradient. *)
Definition grad1 (outputs inputs : mat) : result mat := Ok [[1]].

(** A substrate like [sub] whose encoder passes the expression through
    (one gene, one latent dimension). *)
Definition sub_id : substrate (Distribution := unit) :=
  {| new_Encoder := new_Encoder sub;
     new_FCLayers := λ name n_in n_out x,
       if String.eqb name "encoder" then x else zeros (length x) n_out;
     new_DecoderGauss := new_DecoderGauss sub;
     new_DecoderNB := new_DecoderNB sub;
     new_DrugNetwork := new_DrugNetwork sub;
     new_Embedding := new_Embedding sub;
     new_CrossEntropyLoss := new_CrossEntropyLoss sub;
     randn := randn sub |}.

(** Ten cells and one gene, which is 0 in the first five cells and 1 in
    the last five; the perturbation index and the category of the
    covariate are 0 in the first five cells and 1 in the last five. *)
Definition genes10 : mat :=
  [[0]; [0]; [0]; [0]; [0]; [1]; [1]; [1]; [1]; [1]].
Definition labels10 : imat :=
  [[0%Z]; [0%Z]; [0%Z]; [0%Z]; [0%Z]; [1%Z]; [1%Z]; [1%Z]; [1%Z]; [1%Z]].
Definition doses10 : mat :=
  [[1]; [1]; [1]; [1]; [1]; [1]; [1]; [1]; [1]; [1]].
Definition covars10 (covar : string) : gmap string ivec :=
  {[covar := Torch.ravel labels10]}.

Definition batch10 (X_KEY covar : string) : gmap string tensor :=
  <[covar := LongT labels10]>
    (<["dose_value" := FloatT doses10]>
       (<["drug_name" := LongT labels10]>
          (<[X_KEY := FloatT genes10]> ∅))).

(** [StandardScaler().fit_transform(X)]: every column minus its mean, over
    its standard deviation, a zero deviation being replaced by 1. *)
Definition column (j : nat) (X : mat) : vec := map (λ row, nth j row 0) X.

Definition np_std (v : vec) : R :=
  sqrt (Torch.mean_vec (map (λ x, (x - Torch.mean_vec v) ^ 2) v)).

Definition standard_scaler (X : mat) : mat :=
  map (λ row,
         imap (λ j x,
                 (x - Torch.mean_vec (column j X))
                 / (if Req_dec_T (np_std (column j X)) 0 then 1
                    else np_std (column j X)))
              row)
      X.

(** Every value of [v] occurs fewer than [cv] times. *)
Definition all_below {A : Type} `{EqDecision A} (cv : nat) (v : list A) : bool :=
  forallb (λ l, (length (filter (λ x, x = l) v) <? cv)%nat) v.

(** A cross-validation oracle for data whose classes the features
    separate: it raises [ValueError] where scikit-learn refuses the input
    or the folds, and otherwise every fold is classified perfectly. *)
Definition separating_cv (X : mat) (y : array) (cv : nat) : result (list R) :=
  if negb (length X =? array_length y)%nat then
    Raise (ValueError "Found input variables with inconsistent numbers of samples")
  else if (cv <? 2)%nat then
    Raise (ValueError "k-fold cross-validation requires at least one train/test split by setting n_splits=2 or more")
  else if (length X <? cv)%nat then
    Raise (ValueError "Cannot have number of splits greater than the number of samples")
  else if existsb (λ row, (length row =? 0)%nat) X then
    Raise (ValueError "Found array with 0 feature(s)")
  else if match y with
          | FloatA v =>
              existsb (λ x, if Req_dec_T x (IZR (trunc x)) then false else true) v
          | LongA _ => false
          end then
    Raise (ValueError "Unknown label type: continuous")
  else if match y with
          | FloatA v => all_below cv v
          | LongA v => all_below cv v
          end then
    Raise (ValueError "n_splits cannot be greater than the number of members in each class")
  else if (n_unique y <? 2)%nat then
    Raise (ValueError "This solver needs samples of at least 2 classes in the data")
  else Ok (repeat 1 cv).

(** A [float] for the instances: it reads the strings "1.0", "0.5" and
    "2.0" and rejects every other string; [value3] is the number read. *)
Definition float3 (s : string) : result R :=
  if String.eqb s "1.0" then Ok 1
  else if String.eqb s "0.5" then Ok (1 / 2)
  else if String.eqb s "2.0" then Ok 2
  else Raise (ValueError "could not convert string to float").

Definition value3 (s : string) : R :=
  if String.eqb s "0.5" then 1 / 2
  else if String.eqb s "2.0" then 2
  else 1.

End Examples.

(** * Properties *)

(** ** Fallible computations *)

Lemma bind_Ok_inv {A B : Type} (r : result A) (f : A → result B) (b : B) :
  r ≫= f = Ok b → ∃ a, r = Ok a ∧ f a = Ok b.
Proof. destruct r as [a|e]; simpl; [eauto | discriminate]. Qed.

Lemma getitem_Ok {V : Type} (d : gmap string V) (k : string) (v : V) :
  getitem d k = Ok v ↔ d !! k = Some v.
Proof.
  unfold getitem. destruct (d !! k); split; intros E; congruence.
Qed.

Lemma mapM_Ok_Forall2 {A B : Type} (f : A → result B) (l : list A) (k : list B) :
  mapM f l = Ok k ↔ Forall2 (λ x y, f x = Ok y) l k.
Proof.
  revert k. induction l as [|x l IH]; intros k; simpl.
  - split.
    + intros E. injection E as <-. constructor.
    + intros F. inversion F. reflexivity.
  - split.
    + intros E. apply bind_Ok_inv in E as (y & Hy & E).
      apply bind_Ok_inv in E as (k' & Hk' & E). injection E as <-.
      constructor; [exact Hy | by apply IH].
    + intros F. inversion F as [|? y ? k' Hy Hk']; subst.
      rewrite Hy. simpl. apply IH in Hk'. rewrite Hk'. reflexivity.
Qed.

(** ** Construction *)

Section Construction.

Import CPAModule.
Context {Distribution : Type}.
Implicit Types sub : substrate (Distribution := Distribution).

Lemma str_in_spec (x : string) (l : list string) :
  str_in x l = true ↔ x ∈ l.
Proof.
  unfold str_in. induction l as [|y l IH]; simpl.
  - split; [discriminate | intros H; inversion H].
  - rewrite orb_true_iff, IH, elem_of_cons, String.eqb_eq. reflexivity.
Qed.

Lemma str_in_false (x : string) (l : list string) :
  str_in x l = false ↔ x ∉ l.
Proof.
  rewrite <- str_in_spec. destruct (str_in x l); split; congruence.
Qed.

(** C6: for every [loss_ae] outside the supported set ("gauss", "mse",
    "nb"), constructing the module raises the configuration error
    "Invalid Loss function for Autoencoder"; no module is returned, so no
    supported likelihood is silently chosen. *)
Theorem init_rejects_unsupported_loss sub (n_genes n_drugs : nat)
    (covars_encoder : list (string * list string)) (n_latent : nat)
    (loss_ae doser_type : string) (variational : bool) :
  loss_ae ∉ ["gauss"; "mse"; "nb"] →
  __init__ sub n_genes n_drugs covars_encoder n_latent loss_ae doser_type
    variational
  = Raise (Exception "Invalid Loss function for Autoencoder").
Proof.
  intros Hout. unfold __init__.
  assert (Hg : str_in loss_ae ["gauss"; "mse"] = false).
  { apply str_in_false. intros Hin. apply Hout.
    rewrite !elem_of_cons in *. tauto. }
  assert (Hnb : String.eqb loss_ae "nb" = false).
  { apply String.eqb_neq. intros ->. apply Hout.
    rewrite !elem_of_cons. tauto. }
  rewrite Hg, Hnb. reflexivity.
Qed.

(** A module that was constructed carries the arguments it was given and
    the decoder of its likelihood. *)
Lemma init_fields sub (n_genes n_drugs : nat)
    (covars_encoder : list (string * list string)) (n_latent : nat)
    (loss_ae doser_type : string) (variational : bool) (self : t) :
  __init__ sub n_genes n_drugs covars_encoder n_latent loss_ae doser_type
    variational = Ok self →
  CPAModule.loss_ae self = loss_ae
  ∧ CPAModule.n_latent self = n_latent
  ∧ CPAModule.covars_encoder self = covars_encoder
  ∧ drugs_classifier self = new_FCLayers sub "drugs_classifier" n_latent n_drugs
  ∧ covars_classifiers self
    = dict_comp (λ key unique_covars,
                   new_FCLayers sub key n_latent (length unique_covars))
                covars_encoder
  ∧ (str_in loss_ae ["gauss"; "mse"] = true →
     decoder self = DecoderGauss (new_DecoderGauss sub n_latent n_genes))
  ∧ (str_in loss_ae ["gauss"; "mse"] = false →
     decoder self = DecoderNB (new_DecoderNB sub n_latent n_genes)
     ∧ px_r self = Some (randn sub n_genes)).
Proof.
  intros Hinit. unfold __init__ in Hinit.
  apply bind_Ok_inv in Hinit as ([dec r] & Hdec & Hinit).
  apply bind_Ok_inv in Hinit as (dn & _ & Hinit).
  injection Hinit as <-. unfold str_in in *. simpl in *.
  do 5 (split; [reflexivity|]).
  split; intros Hg; rewrite Hg in Hdec.
  - by injection Hdec as <- _.
  - destruct (String.eqb loss_ae "nb"); [|discriminate].
    by injection Hdec as <- <-.
Qed.

End Construction.

Lemma init_rejects_unsupported_loss_witness :
  ("poisson" ∉ ["gauss"; "mse"; "nb"]) ∧
  CPAModule.__init__ Examples.sub 1 2 [] 1 "poisson" "linear" false
  = Raise (Exception "Invalid Loss function for Autoencoder").
Proof.
  assert (H : "poisson" ∉ ["gauss"; "mse"; "nb"]).
  { apply (bool_decide_unpack _). vm_compute. exact I. }
  split; [exact H|].
  apply (init_rejects_unsupported_loss Examples.sub 1 2 [] 1 "poisson" "linear"
           false H).
Defined.

(** ** Tensor operations on operands of equal shape *)

Section TorchFacts.

Import Torch Spec.

Lemma bvec_same (f : R → R → R) (u v : vec) :
  length u = length v → bvec f u v = Ok (zip_with f u v).
Proof.
  intros E. unfold bvec. rewrite E, Nat.eqb_refl. reflexivity.
Qed.

Lemma bzip_same (f : R → R → R) (g : nat) (a b : mat) :
  Forall (λ row, length row = g) a →
  Forall (λ row, length row = g) b →
  bzip f a b = Ok (zip_with (zip_with f) a b).
Proof.
  intros Ha. revert b.
  induction Ha as [|ra a Hra Ha IH]; intros b Hb; [reflexivity|].
  destruct Hb as [|rb b Hrb Hb]; [reflexivity|]. simpl.
  rewrite bvec_same by congruence. simpl.
  rewrite (IH b Hb). reflexivity.
Qed.

Lemma bmat_same (f : R → R → R) (b g : nat) (x y : mat) :
  shape b g x → shape b g y →
  bmat f x y = Ok (zip_with (zip_with f) x y).
Proof.
  intros [Lx Fx] [Ly Fy]. unfold bmat.
  rewrite Lx, Ly, Nat.eqb_refl. by apply bzip_same with g.
Qed.

Lemma shape_zip (f : R → R → R) (b g : nat) (x y : mat) :
  shape b g x → shape b g y → shape b g (zip_with (zip_with f) x y).
Proof.
  intros [Lx Fx] [Ly Fy]. split.
  - rewrite length_zip_with, Lx, Ly. apply Nat.min_id.
  - clear Lx Ly. revert y Fy.
    induction Fx as [|rx x Hrx Fx IH]; intros y Fy; [constructor|].
    destruct Fy as [|ry y Hry Fy]; [constructor|]. simpl.
    constructor; [|by apply IH].
    rewrite length_zip_with, Hrx, Hry. apply Nat.min_id.
Qed.

Lemma shape_map_mat (f : R → R) (b g : nat) (x : mat) :
  shape b g x → shape b g (map_mat f x).
Proof.
  intros [Lx Fx]. unfold map_mat. split.
  - by rewrite length_map.
  - apply Forall_fmap. eapply Forall_impl; [exact Fx|].
    intros row Hrow. simpl. by rewrite length_map.
Qed.

Lemma at2_lookup (m : mat) (i j : nat) (row : vec) (x : R) :
  m !! i = Some row → row !! j = Some x → at2 m i j = x.
Proof.
  intros Hi Hj. unfold at2.
  rewrite (nth_lookup m i), Hi. simpl.
  rewrite (nth_lookup row j), Hj. reflexivity.
Qed.

Lemma shape_lookup (b g : nat) (m : mat) (i j : nat) :
  shape b g m → (i < b)%nat → (j < g)%nat →
  ∃ row x, m !! i = Some row ∧ row !! j = Some x.
Proof.
  intros [Lm Fm] Hi Hj.
  destruct (lookup_lt_is_Some_2 m i) as [row Hrow]; [lia|].
  assert (Hlen : length row = g).
  { rewrite Forall_forall in Fm. apply Fm.
    apply list_elem_of_lookup. eauto. }
  destruct (lookup_lt_is_Some_2 row j) as [x Hx]; [lia|].
  eauto.
Qed.

Lemma at2_zip (f : R → R → R) (b g : nat) (x y : mat) (i j : nat) :
  shape b g x → shape b g y → (i < b)%nat → (j < g)%nat →
  at2 (zip_with (zip_with f) x y) i j = f (at2 x i j) (at2 y i j).
Proof.
  intros Sx Sy Hi Hj.
  destruct (shape_lookup b g x i j Sx Hi Hj) as (rx & vx & Hrx & Hvx).
  destruct (shape_lookup b g y i j Sy Hi Hj) as (ry & vy & Hry & Hvy).
  rewrite (at2_lookup x i j rx vx Hrx Hvx).
  rewrite (at2_lookup y i j ry vy Hry Hvy).
  apply at2_lookup with (zip_with f rx ry).
  - rewrite lookup_zip_with, Hrx. simpl. rewrite Hry. reflexivity.
  - rewrite lookup_zip_with, Hvx. simpl. rewrite Hvy. reflexivity.
Qed.

Lemma at2_map_mat (f : R → R) (b g : nat) (x : mat) (i j : nat) :
  shape b g x → (i < b)%nat → (j < g)%nat →
  at2 (map_mat f x) i j = f (at2 x i j).
Proof.
  intros Sx Hi Hj.
  destruct (shape_lookup b g x i j Sx Hi Hj) as (rx & vx & Hrx & Hvx).
  rewrite (at2_lookup x i j rx vx Hrx Hvx).
  apply at2_lookup with (map f rx); unfold map_mat.
  - change (map (map f) x) with (map f <$> x).
    rewrite list_lookup_fmap, Hrx. reflexivity.
  - change (map f rx) with (f <$> rx).
    rewrite list_lookup_fmap, Hvx. reflexivity.
Qed.

Lemma sum_upto_ext (n : nat) (f h : nat → R) :
  (∀ i, (i < n)%nat → f i = h i) → sum_upto n f = sum_upto n h.
Proof.
  intros E. unfold sum_upto. f_equal. apply map_ext_in.
  intros i Hi. apply in_seq in Hi. apply E. lia.
Qed.

Lemma sum_upto_S (n : nat) (f : nat → R) :
  sum_upto (S n) f = f 0%nat + sum_upto n (λ i, f (S i)).
Proof.
  unfold sum_upto. simpl. f_equal.
  rewrite <- seq_shift, map_map. reflexivity.
Qed.

Lemma sum_vec_nth (v : vec) :
  sum_vec v = sum_upto (length v) (λ j, nth j v 0).
Proof.
  induction v as [|x v IH]; [reflexivity|].
  simpl length. rewrite sum_upto_S. simpl. by rewrite IH.
Qed.

Lemma sum_vec_app (u v : vec) : sum_vec (u ++ v) = sum_vec u + sum_vec v.
Proof.
  unfold sum_vec. induction u as [|x u IH]; simpl; [lra|].
  rewrite IH. lra.
Qed.

Lemma sum_concat (m : mat) :
  sum_vec (concat m) = sum_upto (length m) (λ i, sum_vec (nth i m [])).
Proof.
  induction m as [|row m IH]; [reflexivity|].
  simpl length. rewrite sum_upto_S. simpl.
  rewrite sum_vec_app, IH. reflexivity.
Qed.

Lemma numel_shape (b g : nat) (m : mat) :
  shape b g m → numel m = (b * g)%nat.
Proof.
  intros [Lm Fm]. subst b. unfold numel.
  induction Fm as [|row m Hrow Fm IH]; [reflexivity|].
  simpl. rewrite length_app, IH. lia.
Qed.

(** The mean of a [b] x [g] tensor as a double sum over its indices. *)
Lemma mean_shape (b g : nat) (m : mat) :
  shape b g m →
  mean m = sum_upto b (λ i, sum_upto g (λ j, at2 m i j)) / INR (b * g).
Proof.
  intros Sm. unfold mean. rewrite (numel_shape b g m Sm). f_equal.
  rewrite sum_concat. destruct Sm as [Lm Fm]. rewrite Lm.
  apply sum_upto_ext. intros i Hi.
  rewrite sum_vec_nth. unfold at2.
  assert (Hlen : length (nth i m []) = g).
  { rewrite Forall_forall in Fm. apply Fm.
    apply list_elem_of_In, nth_In. lia. }
  rewrite Hlen. reflexivity.
Qed.

End TorchFacts.

(** ** Generative step and reconstruction loss *)

Section Reconstruction.

Import CPAModule Torch Spec.
Context {Distribution : Type}.
Variable X_KEY : string.
Implicit Types sub : substrate (Distribution := Distribution).
Implicit Types self : t (Distribution := Distribution).

Lemma dict_comp_lookup {V : Type} (f : string → list string → V)
    (d : list (string * list string)) (k : string) :
  k ∈ map fst d → is_Some (dict_comp f d !! k).
Proof.
  unfold dict_comp. intros Hk.
  assert (G : ∀ m0 : gmap string V,
             k ∈ map fst d ∨ is_Some (m0 !! k) →
             is_Some (fold_left (λ m kv, <[kv.1 := f kv.1 kv.2]> m) d m0 !! k)).
  { clear Hk. induction d as [|[k' v'] d IH]; intros m0 H; simpl.
    - destruct H as [H|H]; [inversion H | exact H].
    - apply IH. destruct H as [H|H].
      + apply elem_of_cons in H as [->|H]; [right|by left].
        simpl. rewrite lookup_insert_eq. eauto.
      + right. simpl. destruct (decide (k' = k)) as [->|Hne].
        * rewrite lookup_insert_eq. eauto.
        * by rewrite lookup_insert_ne. }
  apply G. by left.
Qed.

(** The classifier loop of [generative] finds every covariate's head in a
    module whose heads were built from the same [covars_encoder]. *)
Lemma covars_pred_Ok (clfs : gmap string (list (list R) → list (list R)))
    (latent_basal : list (list R)) (covs : list (string * list string))
    (acc : gmap string (list (list R))) :
  (∀ kv, kv ∈ covs → is_Some (clfs !! kv.1)) →
  ∃ preds,
    foldM (λ acc (kv : string * list string),
             clf ← getitem clfs kv.1;
             Ok (<[kv.1 := clf latent_basal]> acc)) acc covs = Ok preds.
Proof.
  revert acc. induction covs as [|kv covs IH]; intros acc Hall; simpl.
  - eauto.
  - destruct (Hall kv) as [clf Hclf]; [by left|].
    apply getitem_Ok in Hclf. rewrite Hclf. simpl.
    apply IH. intros kv' Hkv'. apply Hall. by right.
Qed.

Lemma gaussian_nll_pointwise (x m v : R) :
  ln v / 2 + (x - m) ^ 2 / (v * 2) = gaussian_nll x m v.
Proof.
  unfold gaussian_nll. rewrite (Rmult_comm v 2). simpl. unfold Rdiv.
  rewrite Rmult_1_r. lra.
Qed.

(** The Gaussian branch of [loss] on tensors of one shape. *)
Lemma loss_gauss_core self (tensors : gmap string tensor)
    (generative_outputs : gmap string gen_value)
    (x means variances : list (list R)) (b g : nat) :
  str_in (loss_ae self) ["gauss"; "mse"] = true →
  tensors !! X_KEY = Some (FloatT x) →
  generative_outputs !! "means" = Some (GTensor means) →
  generative_outputs !! "variances" = Some (GTensor variances) →
  shape b g x → shape b g means → shape b g variances →
  loss X_KEY self tensors generative_outputs
  = Ok (mean_gaussian_nll b g x means variances).
Proof.
  intros Hae Hx Hm Hv Sx Sm Sv. unfold loss, getitem.
  rewrite Hx, Hm, Hv. cbn [mbind result_bind as_float gen_tensor].
  rewrite Hae.
  unfold sub, div, add.
  rewrite (bmat_same Rminus b g x means Sx Sm). cbn [mbind result_bind].
  pose proof (shape_zip Rminus b g x means Sx Sm) as Sd.
  pose proof (shape_map_mat (λ y, y ^ 2) b g _ Sd) as Sp.
  pose proof (shape_map_mat (λ y, y * 2) b g _ Sv) as Sv2.
  pose proof (shape_map_mat ln b g _ Sv) as Sl.
  pose proof (shape_map_mat (λ y, y / 2) b g _ Sl) as Sl2.
  unfold pow, mul_scalar, div_scalar, log.
  rewrite (bmat_same Rdiv b g _ _ Sp Sv2). cbn [mbind result_bind].
  pose proof (shape_zip Rdiv b g _ _ Sp Sv2) as St2.
  rewrite (bmat_same Rplus b g _ _ Sl2 St2). cbn [mbind result_bind].
  pose proof (shape_zip Rplus b g _ _ Sl2 St2) as Stot.
  f_equal. rewrite (mean_shape b g _ Stot). unfold mean_gaussian_nll.
  f_equal. apply sum_upto_ext. intros i Hi.
  apply sum_upto_ext. intros j Hj.
  rewrite (at2_zip Rplus b g _ _ i j Sl2 St2 Hi Hj).
  rewrite (at2_map_mat _ b g _ i j Sl Hi Hj).
  rewrite (at2_map_mat _ b g _ i j Sv Hi Hj).
  rewrite (at2_zip Rdiv b g _ _ i j Sp Sv2 Hi Hj).
  rewrite (at2_map_mat _ b g _ i j Sd Hi Hj).
  rewrite (at2_map_mat _ b g _ i j Sv Hi Hj).
  rewrite (at2_zip Rminus b g _ _ i j Sx Sm Hi Hj).
  apply gaussian_nll_pointwise.
Qed.

(** C2: for a module constructed with the Gaussian/MSE likelihood, [loss]
    on the decoder outputs [means], [variances] and the input expression
    [x] (all of shape [b] x [g]) returns the negative Gaussian
    log-likelihood [0.5*log(variance) + (x-mean)^2/(2*variance)] averaged
    over all [b * g] elements. *)
Theorem loss_gaussian_nll sub (n_genes n_drugs : nat)
    (covars_encoder : list (string * list string)) (n_latent : nat)
    (loss_ae doser_type : string) (variational : bool) self
    (tensors : gmap string tensor) (latent latent_basal x : list (list R))
    (b g : nat) :
  loss_ae ∈ ["gauss"; "mse"] →
  __init__ sub n_genes n_drugs covars_encoder n_latent loss_ae doser_type
    variational = Ok self →
  tensors !! X_KEY = Some (FloatT x) →
  shape b g x →
  shape b g (new_DecoderGauss sub n_latent n_genes latent).1 →
  shape b g (new_DecoderGauss sub n_latent n_genes latent).2 →
  ∃ generative_outputs,
    generative self latent latent_basal = Ok generative_outputs
    ∧ loss X_KEY self tensors generative_outputs
      = Ok (mean_gaussian_nll b g x
              (new_DecoderGauss sub n_latent n_genes latent).1
              (new_DecoderGauss sub n_latent n_genes latent).2).
Proof.
  intros Hin Hinit Hx Sx Sm Sv.
  apply str_in_spec in Hin.
  destruct (init_fields _ _ _ _ _ _ _ _ _ Hinit)
    as (Hae & _ & Hcov & _ & Hclf & Hdec & _).
  specialize (Hdec Hin).
  assert (Hnb : String.eqb (CPAModule.loss_ae self) "nb" = false).
  { rewrite Hae. apply String.eqb_neq. intros ->. discriminate Hin. }
  destruct (covars_pred_Ok (covars_classifiers self) latent_basal
              (CPAModule.covars_encoder self) ∅) as [preds Hpreds].
  { intros kv Hkv. rewrite Hclf. apply dict_comp_lookup.
    rewrite Hcov in Hkv. by apply list_elem_of_fmap_2. }
  unfold generative. rewrite Hpreds. cbn [mbind result_bind].
  rewrite Hnb, Hdec.
  destruct (new_DecoderGauss sub n_latent n_genes latent)
    as [means variances] eqn:Hdecoded.
  eexists. split; [reflexivity|].
  apply loss_gauss_core; try assumption.
  - by rewrite Hae.
  - reflexivity.
  - reflexivity.
Qed.

(** Whatever the generative outputs, [loss] raises for a module whose
    likelihood is "nb". *)
Lemma loss_nb_raises self (tensors : gmap string tensor)
    (generative_outputs : gmap string gen_value) :
  loss_ae self = "nb" →
  ∃ e, loss X_KEY self tensors generative_outputs = Raise e.
Proof.
  intros Hnb. unfold loss. rewrite Hnb.
  destruct (getitem tensors X_KEY ≫= as_float); [|eauto].
  destruct (getitem generative_outputs "means" ≫= gen_tensor); [|eauto].
  destruct (getitem generative_outputs "variances" ≫= gen_tensor); eauto.
Qed.

(** The generative outputs of a module constructed with "nb" have no
    "means" entry, so [loss] stops at its first lookup in them. *)
Lemma loss_nb_KeyError sub (n_genes n_drugs : nat)
    (covars_encoder : list (string * list string)) (n_latent : nat)
    (doser_type : string) (variational : bool) self
    (tensors : gmap string tensor) (latent latent_basal x : list (list R)) :
  __init__ sub n_genes n_drugs covars_encoder n_latent "nb" doser_type
    variational = Ok self →
  tensors !! X_KEY = Some (FloatT x) →
  ∃ generative_outputs,
    generative self latent latent_basal = Ok generative_outputs
    ∧ loss X_KEY self tensors generative_outputs = Raise (KeyError "means").
Proof.
  intros Hinit Hx.
  destruct (init_fields _ _ _ _ _ _ _ _ _ Hinit)
    as (Hae & _ & Hcov & _ & Hclf & _ & Hdec).
  destruct (Hdec eq_refl) as [Hd Hr].
  destruct (covars_pred_Ok (covars_classifiers self) latent_basal
              (CPAModule.covars_encoder self) ∅) as [preds Hpreds].
  { intros kv Hkv. rewrite Hclf. apply dict_comp_lookup.
    rewrite Hcov in Hkv. by apply list_elem_of_fmap_2. }
  unfold generative. rewrite Hpreds. cbn [mbind result_bind].
  rewrite Hae, Hd, Hr. cbn [String.eqb Ascii.eqb Bool.eqb].
  eexists. split; [reflexivity|].
  unfold loss, getitem. rewrite Hx. cbn [mbind result_bind as_float].
  reflexivity.
Qed.

End Reconstruction.

Lemma loss_gaussian_nll_witness :
  ∃ self,
    CPAModule.__init__ Examples.sub 1 2 [] 1 "gauss" "linear" false = Ok self
    ∧ ∃ generative_outputs,
        CPAModule.generative self Examples.genes2 Examples.genes2
        = Ok generative_outputs
        ∧ CPAModule.loss "X" self (Examples.batch2 "X" "cell_type")
            generative_outputs
          = Ok (Spec.mean_gaussian_nll 2 1 Examples.genes2
                  (CPAModule.new_DecoderGauss Examples.sub 1 1 Examples.genes2).1
                  (CPAModule.new_DecoderGauss Examples.sub 1 1 Examples.genes2).2).
Proof.
  eexists. split; [reflexivity|].
  apply (loss_gaussian_nll "X" Examples.sub 1 2 [] 1 "gauss" "linear" false _
           (Examples.batch2 "X" "cell_type") Examples.genes2 Examples.genes2
           Examples.genes2 2 1).
  - apply (bool_decide_unpack _). vm_compute. exact I.
  - reflexivity.
  - reflexivity.
  - split; [reflexivity | repeat constructor].
  - split; [reflexivity | repeat constructor].
  - split; [reflexivity | repeat constructor].
Defined.

(** C3: on a module constructed with the count likelihood "nb" the code
    does not return a negative log-likelihood: the generative outputs of
    such a module carry "dist_px" and no "means" entry, and [loss] raises
    [KeyError] at its first lookup in them. *)
Theorem loss_nb_fails :
  ∃ self out generative_outputs,
    CPAModule.__init__ Examples.sub 1 2 [("cell_type", ["A"; "B"])] 1 "nb"
      "linear" false = Ok self
    ∧ CPAModule.inference self Examples.genes2 Examples.drugs2 Examples.doses2
        (Examples.covars2 "cell_type") = Ok out
    ∧ CPAModule.generative self (CPAModule.latent out)
        (CPAModule.latent_basal out) = Ok generative_outputs
    ∧ is_Some (generative_outputs !! "dist_px")
    ∧ CPAModule.loss "X" self (Examples.batch2 "X" "cell_type")
        generative_outputs = Raise (KeyError "means").
Proof.
  eexists _, _, _.
  split; [reflexivity|].
  split; [reflexivity|].
  split; [reflexivity|].
  split; [vm_compute; eauto|].
  vm_compute. reflexivity.
Qed.

(** ** Inference *)

(** Whatever the batch, [inference] adds one and the same covariate vector
    to the basal code of every cell before adding the treatment embedding. *)
Lemma inference_shared_covariate_vector {Distribution : Type}
    (self : CPAModule.t (Distribution := Distribution))
    (genes : list (list R)) (drugs : list (list Z)) (doses : list (list R))
    (covars_dict : gmap string (list Z)) (out : CPAModule.inference_outputs) :
  CPAModule.inference self genes drugs doses covars_dict = Ok out →
  ∃ shared treatment with_covs,
    CPAModule.drug_network self drugs doses = Ok treatment
    ∧ Forall2 (λ basal_i w_i, Torch.bvec Rplus basal_i shared = Ok w_i)
        (CPAModule.latent_basal out) with_covs
    ∧ Torch.add with_covs treatment = Ok (CPAModule.latent out).
Proof.
  intros Hrun. unfold CPAModule.inference in Hrun.
  apply bind_Ok_inv in Hrun as ([dist basal] & _ & Hrun).
  apply bind_Ok_inv in Hrun as (lib & _ & Hrun).
  apply bind_Ok_inv in Hrun as (lcs & _ & Hrun).
  apply bind_Ok_inv in Hrun as (stacked & _ & Hrun).
  apply bind_Ok_inv in Hrun as (treatment & Htreat & Hrun).
  apply bind_Ok_inv in Hrun as (with_covs & Hcovs & Hrun).
  apply bind_Ok_inv in Hrun as (lat & Hlat & Hrun).
  injection Hrun as <-. cbn [CPAModule.latent CPAModule.latent_basal].
  exists (Torch.sum0 (CPAModule.n_latent self) stacked), treatment, with_covs.
  split; [exact Htreat|]. split; [|exact Hlat].
  by apply mapM_Ok_Forall2.
Qed.

(** C1: on a batch of two cells of different categories the combined latent
    returned by [inference] is not the per-cell sum the claim describes:
    every cell receives the covariate embeddings of all cells of the batch
    (1 + 2 = 3 here), where the claim gives the first cell 1 and the
    second cell 2. *)
Theorem inference_latent_not_per_cell :
  ∃ self out treatment,
    CPAModule.__init__ Examples.sub 1 2 [("cell_type", ["A"; "B"])] 1 "gauss"
      "linear" false = Ok self
    ∧ CPAModule.inference self Examples.genes2 Examples.drugs2 Examples.doses2
        (Examples.covars2 "cell_type") = Ok out
    ∧ CPAModule.drug_network self Examples.drugs2 Examples.doses2 = Ok treatment
    ∧ CPAModule.latent out = [[3]; [3]]
    ∧ Spec.additive_latent self (Examples.covars2 "cell_type")
        (CPAModule.latent_basal out)
        treatment = [[1]; [2]]
    ∧ CPAModule.latent out
      ≠ Spec.additive_latent self (Examples.covars2 "cell_type")
          (CPAModule.latent_basal out) treatment.
Proof.
  eexists _, _, _.
  split; [reflexivity|].
  split; [reflexivity|].
  split; [reflexivity|].
  assert (E1 : ∀ a b a' b' : R, a = a' → b = b' → [[a]; [b]] = [[a']; [b']])
    by (intros; subst; reflexivity).
  split; [vm_compute; apply E1; lra|].
  split; [vm_compute; apply E1; lra|].
  vm_compute. intros E. injection E as E _. lra.
Qed.

(** ** Adversarial losses *)

Section Adversarial.

Import CPAModule.
Context {Distribution : Type}.
Variable autograd_grad : list (list R) → list (list R) → result (list (list R)).
Implicit Types self : t (Distribution := Distribution).
Implicit Types m res : gmap string R.

Lemma py_sum_total (xs : list R) : py_sum xs = Spec.total xs.
Proof.
  unfold py_sum, Spec.total.
  assert (G : ∀ a, fold_left Rplus xs a = a + fold_right Rplus 0 xs).
  { induction xs as [|x xs IH]; intros a; simpl; [lra|].
    rewrite IH. lra. }
  rewrite G. lra.
Qed.

(** A loop whose every step leaves key [k] alone leaves it alone. *)
Lemma foldM_lookup_other (step : gmap string R → string → result (gmap string R))
    (k : string) (keys : list string) :
  (∀ m c m', c ∈ keys → step m c = Ok m' → m' !! k = m !! k) →
  ∀ m res, foldM step m keys = Ok res → res !! k = m !! k.
Proof.
  induction keys as [|c keys IH]; intros Hstep m res Hfold; simpl in Hfold.
  - by injection Hfold as <-.
  - apply bind_Ok_inv in Hfold as (m' & Hm' & Hfold).
    rewrite (IH (λ m0 c0 m0' Hc0, Hstep m0 c0 m0' (list_elem_of_further _ _ _ Hc0))
               m' res Hfold).
    apply (Hstep m c m'); [by left | exact Hm'].
Qed.

Lemma Forall2_impl_elem {A B : Type} (P Q : A → B → Prop)
    (l : list A) (k : list B) :
  Forall2 P l k → (∀ x y, x ∈ l → P x y → Q x y) → Forall2 Q l k.
Proof.
  induction 1 as [|x y l k Hxy _ IH]; intros Himp; constructor.
  - apply Himp; [by left | exact Hxy].
  - apply IH. intros x' y' Hx'. apply Himp. by right.
Qed.

Lemma adv_key_not_penalty (s s' : string) :
  "penalty_" +:+ s' ≠ "adv_" +:+ s.
Proof. discriminate. Qed.

Lemma prefixed_key_inj (prefix s s' : string) :
  prefix +:+ s = prefix +:+ s' → s = s'.
Proof. apply (inj (String.app prefix)). Qed.

(** The decomposition of a successful run of [adversarial_loss] into the
    dictionaries it goes through. *)
Lemma adversarial_loss_stages self (tensors : gmap string tensor)
    (io : inference_outputs) (gen : gmap string gen_value) res :
  adversarial_loss autograd_grad self tensors io gen = Ok res →
  let keys := map fst (covars_encoder self) in
  ∃ m1 m4 adv_drugs adv_terms penalty_drugs penalty_terms,
    m1 !! "adv_drugs" = Some adv_drugs
    ∧ Forall2 (λ c v, m1 !! ("adv_" +:+ c) = Some v) keys adv_terms
    ∧ (∀ s, m4 !! ("adv_" +:+ s)
            = <["adv_loss" := adv_drugs + py_sum adv_terms]> m1
                !! ("adv_" +:+ s))
    ∧ m4 !! "penalty_drugs" = Some penalty_drugs
    ∧ Forall2 (λ c v, m4 !! ("penalty_" +:+ c) = Some v) keys penalty_terms
    ∧ res = <["penalty_adv" := penalty_drugs + py_sum penalty_terms]> m4.
Proof.
  intros Hrun keys. unfold adversarial_loss in Hrun. fold keys in Hrun.
  apply bind_Ok_inv in Hrun as (drug_name & _ & Hrun).
  apply bind_Ok_inv in Hrun as (drugs_pred & _ & Hrun).
  apply bind_Ok_inv in Hrun as (covars_pred & _ & Hrun).
  apply bind_Ok_inv in Hrun as (m0 & _ & Hrun).
  apply bind_Ok_inv in Hrun as (l & _ & Hrun).
  apply bind_Ok_inv in Hrun as (adv_drugs & Hadv & Hrun).
  apply bind_Ok_inv in Hrun as (adv_terms & Hterms & Hrun).
  apply bind_Ok_inv in Hrun as (m3 & Hm3 & Hrun).
  apply bind_Ok_inv in Hrun as (p & _ & Hrun).
  apply bind_Ok_inv in Hrun as (penalty_drugs & Hpd & Hrun).
  apply bind_Ok_inv in Hrun as (penalty_terms & Hpterms & Hrun).
  injection Hrun as <-.
  exists (<["adv_drugs" := l]> m0), (<["penalty_drugs" := p]> m3),
    adv_drugs, adv_terms, penalty_drugs, penalty_terms.
  split; [by apply getitem_Ok|].
  split.
  { apply mapM_Ok_Forall2 in Hterms.
    eapply Forall2_impl; [exact Hterms|].
    intros c v Hcv. by apply getitem_Ok. }
  split.
  { intros s.
    rewrite lookup_insert_ne by apply (adv_key_not_penalty s "drugs").
    eapply foldM_lookup_other; [|exact Hm3].
    intros m c m' _ Hstep. cbn beta in Hstep.
    apply bind_Ok_inv in Hstep as (pred & _ & Hstep).
    apply bind_Ok_inv in Hstep as (pen & _ & Hstep).
    injection Hstep as <-.
    apply lookup_insert_ne, adv_key_not_penalty. }
  split; [by apply getitem_Ok|].
  split; [|reflexivity].
  apply mapM_Ok_Forall2 in Hpterms.
  eapply Forall2_impl; [exact Hpterms|].
  intros c v Hcv. by apply getitem_Ok.
Qed.

(** C4 (amended): in the mapping returned by [adversarial_loss], when no
    covariate is named "loss" the "adv_loss" entry is the sum of the
    "adv_drugs" entry and of every "adv_<covariate>" entry, and when no
    covariate is named "adv" the "penalty_adv" entry is the sum of the
    "penalty_drugs" entry and of every "penalty_<covariate>" entry. *)
Theorem adversarial_loss_totals self (tensors : gmap string tensor)
    (io : inference_outputs) (gen : gmap string gen_value) res :
  adversarial_loss autograd_grad self tensors io gen = Ok res →
  let keys := map fst (covars_encoder self) in
  ("loss" ∉ keys →
   ∃ adv_drugs terms,
     res !! "adv_drugs" = Some adv_drugs
     ∧ Forall2 (λ c v, res !! ("adv_" +:+ c) = Some v) keys terms
     ∧ res !! "adv_loss" = Some (adv_drugs + Spec.total terms))
  ∧ ("adv" ∉ keys →
     ∃ penalty_drugs terms,
       res !! "penalty_drugs" = Some penalty_drugs
       ∧ Forall2 (λ c v, res !! ("penalty_" +:+ c) = Some v) keys terms
       ∧ res !! "penalty_adv" = Some (penalty_drugs + Spec.total terms)).
Proof.
  intros Hrun keys.
  destruct (adversarial_loss_stages self tensors io gen res Hrun)
    as (m1 & m4 & a & ts & pd & ps & Ha & Hts & Hadv & Hpd & Hps & ->).
  fold keys in Hts, Hps. split.
  - intros Hloss. exists a, ts.
    assert (Hthrough : ∀ s, s ≠ "loss" →
              <["penalty_adv" := pd + py_sum ps]> m4 !! ("adv_" +:+ s)
              = m1 !! ("adv_" +:+ s)).
    { intros s Hs.
      rewrite lookup_insert_ne by apply (adv_key_not_penalty s "adv").
      rewrite Hadv. apply lookup_insert_ne.
      intros E. apply Hs. symmetry.
      by apply (prefixed_key_inj "adv_" "loss" s). }
    split; [|split].
    + rewrite <- Ha. apply (Hthrough "drugs"). discriminate.
    + eapply Forall2_impl_elem; [exact Hts|].
      intros c v Hc Hcv. cbn beta. rewrite <- Hcv. apply Hthrough.
      by intros ->.
    + rewrite lookup_insert_ne by apply (adv_key_not_penalty "loss" "adv").
      etrans; [exact (Hadv "loss")|]. rewrite <- py_sum_total.
      apply (lookup_insert_eq m1 "adv_loss").
  - intros Hadvname. exists pd, ps.
    split; [|split].
    + rewrite <- Hpd. apply lookup_insert_ne. discriminate.
    + eapply Forall2_impl_elem; [exact Hps|].
      intros c v Hc Hcv. cbn beta. rewrite <- Hcv. apply lookup_insert_ne.
      intros E. apply Hadvname.
      by rewrite (prefixed_key_inj "penalty_" "adv" c E).
    + rewrite <- py_sum_total. apply lookup_insert_eq.
Qed.

End Adversarial.

(** C4 (counterexample): with a covariate named "loss" the covariate's
    cross-entropy and the aggregate share the key "adv_loss"; in the
    returned mapping the "adv_loss" entry then differs from the sum of the
    "adv_drugs" entry and the "adv_<covariate>" entries. *)
Lemma adversarial_loss_total_overwritten :
  ∃ self out gen res,
    CPAModule.__init__ Examples.sub 1 2 [("loss", ["A"; "B"])] 1 "gauss"
      "linear" false = Ok self
    ∧ CPAModule.inference self Examples.genes2 Examples.drugs2 Examples.doses2
        (Examples.covars2 "loss") = Ok out
    ∧ CPAModule.generative self (CPAModule.latent out)
        (CPAModule.latent_basal out) = Ok gen
    ∧ CPAModule.adversarial_loss Examples.grad1 self
        (Examples.batch2 "X" "loss") out gen = Ok res
    ∧ ¬ (∃ adv_drugs terms,
           res !! "adv_drugs" = Some adv_drugs
           ∧ Forall2 (λ c v, res !! ("adv_" +:+ c) = Some v)
               (map fst (CPAModule.covars_encoder self)) terms
           ∧ res !! "adv_loss" = Some (adv_drugs + Spec.total terms)).
Proof.
  eexists _, _, _, _.
  split; [reflexivity|].
  split; [reflexivity|].
  split; [reflexivity|].
  split; [reflexivity|].
  intros (a & ts & Ha & Hts & Htot).
  vm_compute in Ha. injection Ha as Ha.
  simpl in Hts.
  inversion Hts as [|c v cs vs Hv Hnil]; subst.
  inversion Hnil; subst.
  vm_compute in Hv. injection Hv as Hv.
  vm_compute in Htot. injection Htot as Htot.
  lra.
Qed.

Lemma adversarial_loss_totals_witness :
  ∃ self out gen res,
    CPAModule.__init__ Examples.sub 1 2 [("cell_type", ["A"; "B"])] 1 "gauss"
      "linear" false = Ok self
    ∧ CPAModule.inference self Examples.genes2 Examples.drugs2 Examples.doses2
        (Examples.covars2 "cell_type") = Ok out
    ∧ CPAModule.generative self (CPAModule.latent out)
        (CPAModule.latent_basal out) = Ok gen
    ∧ CPAModule.adversarial_loss Examples.grad1 self
        (Examples.batch2 "X" "cell_type") out gen = Ok res
    ∧ ("loss" ∉ map fst (CPAModule.covars_encoder self))
    ∧ ("adv" ∉ map fst (CPAModule.covars_encoder self))
    ∧ (∃ adv_drugs terms,
         res !! "adv_drugs" = Some adv_drugs
         ∧ Forall2 (λ c v, res !! ("adv_" +:+ c) = Some v)
             (map fst (CPAModule.covars_encoder self)) terms
         ∧ res !! "adv_loss" = Some (adv_drugs + Spec.total terms))
    ∧ (∃ penalty_drugs terms,
         res !! "penalty_drugs" = Some penalty_drugs
         ∧ Forall2 (λ c v, res !! ("penalty_" +:+ c) = Some v)
             (map fst (CPAModule.covars_encoder self)) terms
         ∧ res !! "penalty_adv" = Some (penalty_drugs + Spec.total terms)).
Proof.
  eexists _, _, _, _.
  split; [reflexivity|].
  split; [reflexivity|].
  split; [reflexivity|].
  match goal with
  | |- ?run = Ok ?res ∧ _ =>
      assert (Hrun : run = Ok res) by reflexivity
  end.
  split; [exact Hrun|].
  assert (Hloss : "loss" ∉ ["cell_type"])
    by (apply (bool_decide_unpack _); vm_compute; exact I).
  assert (Hadv : "adv" ∉ ["cell_type"])
    by (apply (bool_decide_unpack _); vm_compute; exact I).
  split; [exact Hloss|]. split; [exact Hadv|].
  pose proof (adversarial_loss_totals Examples.grad1 _ _ _ _ _ Hrun) as [H1 H2].
  split; [exact (H1 Hloss) | exact (H2 Hadv)].
Defined.

(** ** Disentanglement scores *)

Section Disentanglement.

Import CPAModule.
Context {Distribution : Type}.
Variable StandardScaler_fit_transform : list (list R) → list (list R).
Variable cross_val_score : list (list R) → array → nat → result (list R).
Implicit Types self : t (Distribution := Distribution).









End Disentanglement.








(** C8: the fit of the perturbation label on the combined latent is
    requested with 5 folds although its labels take 2 distinct values, where
    the claim has [min(5, 2) = 2] folds; the three sibling fits do use the
    minimum. *)
Theorem disentanglement_latent_drug_fit_five_folds :
  ∃ self out scores log basal_fit covar_fit latent_fit latent_covar_fit,
    CPAModule.__init__ Examples.sub_id 1 2 [("cell_type", ["A"; "B"])] 1
      "gauss" "linear" false = Ok self
    ∧ CPAModule.inference self Examples.genes10 Examples.labels10
        Examples.doses10 (Examples.covars10 "cell_type") = Ok out
    ∧ CPAModule.disentanglement Examples.standard_scaler
        Examples.separating_cv self (Examples.batch10 "X" "cell_type") out []
      = Ok (scores, log)
    ∧ log = [basal_fit; covar_fit; latent_fit; latent_covar_fit]
    ∧ CPAModule.cv_folds basal_fit
      = Nat.min 5 (CPAModule.n_unique (CPAModule.cv_y basal_fit))
    ∧ CPAModule.cv_folds covar_fit
      = Nat.min 5 (CPAModule.n_unique (CPAModule.cv_y covar_fit))
    ∧ CPAModule.cv_folds latent_covar_fit
      = Nat.min 5 (CPAModule.n_unique (CPAModule.cv_y latent_covar_fit))
    ∧ CPAModule.cv_y latent_fit = LongA (Torch.ravel Examples.labels10)
    ∧ CPAModule.n_unique (CPAModule.cv_y latent_fit) = 2%nat
    ∧ CPAModule.cv_folds latent_fit = 5%nat
    ∧ CPAModule.cv_folds latent_fit
      ≠ Nat.min 5 (CPAModule.n_unique (CPAModule.cv_y latent_fit)).
Proof.
  eexists _, _, _, _, _, _, _, _.
  split; [reflexivity|].
  split; [reflexivity|].
  split; [reflexivity|].
  split; [reflexivity|].
  repeat split; try (vm_compute; reflexivity).
  vm_compute. discriminate.
Qed.

(** ** [setup_anndata]: the differential-expression masks *)

Section DegMasks.

Import CPA.

Lemma elem_of_np_unique (x : string) (a : list string) :
  x ∈ np_unique a ↔ x ∈ a.
Proof.
  unfold np_unique, sorted.
  rewrite merge_sort_Permutation. apply elem_of_remove_dups.
Qed.

(** Every condition the loop visits ends up as a key of the first table. *)
Lemma deg_tables_lookup (var_names : list string)
    (uns_deg : gmap string (list string)) (n_deg_r2 : nat)
    (conds : list string) (x : string) :
  x ∈ conds →
  is_Some ((deg_tables var_names uns_deg n_deg_r2 conds).1 !! x).
Proof.
  unfold deg_tables. intros Hx.
  assert (G : ∀ maps : gmap string (list Z) * gmap string (list Z),
             x ∈ conds ∨ is_Some (maps.1 !! x) →
             is_Some
               ((fold_left
                   (λ maps cov_cond,
                      let '(cov_cond_map, cov_cond_map_r2) := maps in
                      match uns_deg !! cov_cond with
                      | Some degs =>
                          (<[cov_cond := isin var_names degs]> cov_cond_map,
                           <[cov_cond := isin var_names (take n_deg_r2 degs)]>
                             cov_cond_map_r2)
                      | None =>
                          (<[cov_cond := repeat 1%Z (length var_names)]>
                             cov_cond_map,
                           <[cov_cond := repeat 1%Z (length var_names)]>
                             cov_cond_map_r2)
                      end) conds maps).1 !! x)).
  { clear Hx. induction conds as [|c conds IH]; intros [m m2] H.
    - destruct H as [H|H]; [inversion H | exact H].
    - cbn [fold_left]. apply IH.
      destruct (decide (c = x)) as [->|Hne].
      + right. destruct (uns_deg !! x); simpl;
          rewrite lookup_insert_eq; eauto.
      + destruct H as [H|H].
        * apply elem_of_cons in H as [->|H]; [done | by left].
        * right. destruct (uns_deg !! c); simpl;
            by rewrite lookup_insert_ne. }
  apply G. by left.
Qed.

Lemma mapM_getitem_Ok {V : Type} (d : gmap string V) (keys : list string) :
  (∀ x, x ∈ keys → is_Some (d !! x)) →
  ∃ rows, mapM (λ x, getitem d x) keys = Ok rows
          ∧ Forall2 (λ x row, d !! x = Some row) keys rows.
Proof.
  induction keys as [|x keys IH]; intros Hall.
  - exists []. split; [reflexivity | constructor].
  - destruct (Hall x) as [row Hrow]; [by left|].
    destruct IH as (rows & Hrows & Hall2).
    { intros y Hy. apply Hall. by right. }
    exists (row :: rows). split; [|by constructor].
    pose proof (proj2 (getitem_Ok d x row) Hrow) as Hget.
    simpl. rewrite Hget. simpl. rewrite Hrows. reflexivity.
Qed.

(** C9: with a [deg_uns_key] supplied, the stored "deg_mask_r2" array is
    read, cell by cell, from the same lookup table as "deg_mask"
    ([cov_cond_map], the first table) and the two stored arrays are
    equal, although the table restricted to the first [n_deg_r2] genes is
    built as well. *)
Theorem deg_mask_r2_equals_deg_mask (var_names : list string)
    (uns_deg : gmap string (list string)) (kw_n_deg_r2 : option nat)
    (obs_cat : list string) (obsm : gmap string (list (list Z))) :
  obs_cat ≠ [] →
  ∃ obsm' mask,
    setup_deg_masks var_names uns_deg kw_n_deg_r2 obs_cat obsm = Ok obsm'
    ∧ obsm' !! "deg_mask" = Some mask
    ∧ obsm' !! "deg_mask_r2" = Some mask
    ∧ Forall2
        (λ x row,
           (deg_tables var_names uns_deg (default 10%nat kw_n_deg_r2)
              (np_unique obs_cat)).1 !! x = Some row)
        obs_cat mask.
Proof.
  intros Hne. unfold setup_deg_masks.
  pose proof (deg_tables_lookup var_names uns_deg (default 10%nat kw_n_deg_r2)
                (np_unique obs_cat)) as Hkeys.
  destruct (deg_tables var_names uns_deg (default 10%nat kw_n_deg_r2)
              (np_unique obs_cat)) as [cov_cond_map cov_cond_map_r2].
  destruct (mapM_getitem_Ok cov_cond_map obs_cat) as (rows & Hrows & Hall).
  { intros x Hx. apply Hkeys. by apply elem_of_np_unique. }
  rewrite Hrows. cbn [mbind result_bind].
  assert (Hstack : vstack rows = Ok rows).
  { destruct rows as [|row rows]; [|reflexivity].
    inversion Hall; subst. congruence. }
  rewrite Hstack. cbn [mbind result_bind].
  exists (<["deg_mask_r2" := rows]> (<["deg_mask" := rows]> obsm)), rows.
  split; [reflexivity|]. split; [|split].
  - rewrite lookup_insert_ne by done. apply lookup_insert_eq.
  - apply lookup_insert_eq.
  - exact Hall.
Qed.

End DegMasks.

Lemma deg_mask_r2_equals_deg_mask_witness :
  ∃ obsm' mask,
    CPA.setup_deg_masks ["g1"; "g2"; "g3"] {["ctrl" := ["g1"; "g2"]]} (Some 1%nat)
      ["ctrl"; "drug"] ∅ = Ok obsm'
    ∧ obsm' !! "deg_mask" = Some mask
    ∧ obsm' !! "deg_mask_r2" = Some mask
    ∧ Forall2
        (λ x row,
           (CPA.deg_tables ["g1"; "g2"; "g3"] {["ctrl" := ["g1"; "g2"]]}
              (default 10%nat (Some 1%nat))
              (CPA.np_unique ["ctrl"; "drug"])).1 !! x = Some row)
        ["ctrl"; "drug"] mask.
Proof.
  apply (deg_mask_r2_equals_deg_mask ["g1"; "g2"; "g3"]
           {["ctrl" := ["g1"; "g2"]]} (Some 1%nat) ["ctrl"; "drug"] ∅).
  discriminate.
Defined.

(** The stored "deg_mask_r2" row of a condition is not the row that the
    restricted table holds for it. *)
Lemma deg_mask_r2_ignores_restricted_table :
  ∃ obsm',
    CPA.setup_deg_masks ["g1"; "g2"; "g3"] {["ctrl" := ["g1"; "g2"]]} (Some 1%nat)
      ["ctrl"; "drug"] ∅ = Ok obsm'
    ∧ obsm' !! "deg_mask_r2" = Some [[1; 1; 0]; [1; 1; 1]]%Z
    ∧ (CPA.deg_tables ["g1"; "g2"; "g3"] {["ctrl" := ["g1"; "g2"]]} 1
         (CPA.np_unique ["ctrl"; "drug"])).2 !! "ctrl" = Some [1; 0; 0]%Z.
Proof.
  eexists. split; [reflexivity|].
  split; vm_compute; reflexivity.
Qed.

(** ** [setup_anndata]: the perturbation vocabulary *)

Section Vocabulary.

Import CPA.

Lemma add_tokens_spec (control_group : string) (toks : list string)
    (acc : gset string) (x : string) :
  x ∈ fold_left (λ acc i,
                   if bool_decide (i ≠ control_group) then {[i]} ∪ acc
                   else acc) toks acc
  ↔ x ∈ acc ∨ (x ∈ toks ∧ x ≠ control_group).
Proof.
  revert acc. induction toks as [|i toks IH]; intros acc; cbn [fold_left].
  - split; [by left | intros [H|[H _]]; [exact H | inversion H]].
  - rewrite IH, elem_of_cons. case_bool_decide as Hi.
    + rewrite elem_of_union, elem_of_singleton. split.
      * intros [[->|H]|[H Hx]]; auto.
      * intros [H|[[->|H] Hx]]; auto.
    + split.
      * intros [H|[H Hx]]; auto.
      * intros [H|[[->|H] Hx]]; auto.
        exfalso. tauto.
Qed.

(** The collected names: the tokens of the perturbation strings other
    than the control group. *)
Lemma elem_of_collect_names (perturbations : list string)
    (control_group x : string) :
  x ∈ collect_names perturbations control_group
  ↔ x ≠ control_group ∧ ∃ d, d ∈ perturbations ∧ x ∈ split "+" d.
Proof.
  unfold collect_names.
  assert (G : ∀ (ds : list string) (s0 : gset string),
             x ∈ fold_left
                   (λ s d,
                      fold_left (λ acc i,
                                   if bool_decide (i ≠ control_group)
                                   then {[i]} ∪ acc else acc)
                                (split "+" d) s) ds s0
             ↔ x ∈ s0 ∨ (x ≠ control_group ∧ ∃ d, d ∈ ds ∧ x ∈ split "+" d)).
  { induction ds as [|d ds IH]; intros s0; cbn [fold_left].
    - split; [by left|]. intros [H|(_ & d & Hd & _)]; [exact H|inversion Hd].
    - rewrite IH, add_tokens_spec. split.
      + intros [[H|[H Hx]]|(Hx & d' & Hd' & H)]; auto.
        * right. split; [exact Hx|]. exists d. split; [by left | exact H].
        * right. split; [exact Hx|]. exists d'. split; [by right | exact H].
      + intros [H|(Hx & d' & Hd' & H)]; auto.
        apply elem_of_cons in Hd' as [->|Hd'].
        * left. right. by split.
        * right. split; [exact Hx|]. by exists d'. }
  rewrite G. setoid_rewrite elem_of_np_unique. split.
  - intros [H|H]; [by apply not_elem_of_empty in H | exact H].
  - intros H. by right.
Qed.

(** Lookups in a dictionary built from an enumeration. *)
Lemma enumerate_fold_notin (h : nat → nat) (l : list string)
    (m0 : gmap string nat) (x : string) :
  x ∉ l →
  fold_left (λ m ix, <[ix.2 := ix.1]> m) (imap (λ i y, (h i, y)) l) m0 !! x
  = m0 !! x.
Proof.
  revert h m0. induction l as [|y l IH]; intros h m0 Hx; [reflexivity|].
  cbn [imap fold_left]. apply not_elem_of_cons in Hx as [Hxy Hx].
  unfold compose. rewrite (IH (λ i, h (S i))) by exact Hx.
  by apply lookup_insert_ne.
Qed.

Lemma enumerate_fold_lookup (h : nat → nat) (l : list string)
    (m0 : gmap string nat) (x : string) (i : nat) :
  NoDup l → l !! i = Some x →
  fold_left (λ m ix, <[ix.2 := ix.1]> m) (imap (λ i y, (h i, y)) l) m0 !! x
  = Some (h i).
Proof.
  intros Hnd. revert h m0 i.
  induction Hnd as [|y l Hy Hnd IH]; intros h m0 i Hi; [inversion Hi|].
  cbn [imap fold_left]. unfold compose. destruct i as [|i].
  - injection Hi as ->.
    rewrite (enumerate_fold_notin (λ i, h (S i))) by exact Hy.
    apply lookup_insert_eq.
  - apply (IH (λ i, h (S i))). exact Hi.
Qed.

Lemma enumerate_dict_spec (l : list string) (x : string) (i : nat) :
  NoDup l → (enumerate_dict l !! x = Some i ↔ l !! i = Some x).
Proof.
  intros Hnd. unfold enumerate_dict. split.
  - intros Hx. destruct (decide (x ∈ l)) as [Hin|Hout].
    + apply list_elem_of_lookup in Hin as [j Hj].
      rewrite (enumerate_fold_lookup (λ i, i) l ∅ x j Hnd Hj) in Hx.
      by injection Hx as <-.
    + rewrite (enumerate_fold_notin (λ i, i) l ∅ x Hout) in Hx.
      by rewrite lookup_empty in Hx.
  - apply (enumerate_fold_lookup (λ i, i) l ∅ x i Hnd).
Qed.

(** C10: when the class has no vocabulary yet and "<PAD>" is reserved
    (it is neither the control group nor a perturbation name of the
    data), the fresh vocabulary lists "<PAD>", the control group and then
    the perturbation names in sorted order without repetition; the
    name-to-index dictionary is a bijection from these names onto
    0..n-1 that gives each name its position, so 0 to "<PAD>" and 1 to
    the control group; and the padding index is 0. *)
Theorem fresh_pert_encoder_bijection (perturbations : list string)
    (control_group : string) (registry_padding_idx : nat) :
  "<PAD>" ≠ control_group →
  (∀ d, d ∈ perturbations → "<PAD>" ∉ split "+" d) →
  let v := build_pert_encoder None registry_padding_idx perturbations
             control_group in
  ∃ rest,
    perts_names_unique v = "<PAD>" :: control_group :: rest
    ∧ StronglySorted String.le rest ∧ NoDup rest
    ∧ (∀ x, x ∈ rest
            ↔ x ≠ control_group ∧ ∃ d, d ∈ perturbations ∧ x ∈ split "+" d)
    ∧ (∀ name i, pert_encoder v !! name = Some i
                 ↔ perts_names_unique v !! i = Some name)
    ∧ (∀ i, (i < length (perts_names_unique v))%nat →
            ∃ name, pert_encoder v !! name = Some i)
    ∧ (∀ a b i, pert_encoder v !! a = Some i → pert_encoder v !! b = Some i →
                a = b)
    ∧ pert_encoder v !! "<PAD>" = Some 0%nat
    ∧ pert_encoder v !! control_group = Some 1%nat
    ∧ PADDING_IDX v = 0%nat.
Proof.
  intros Hpad Hdata v.
  set (names := collect_names perturbations control_group).
  set (rest := sorted (elements names)).
  assert (Hrest : ∀ x, x ∈ rest
            ↔ x ≠ control_group ∧ ∃ d, d ∈ perturbations ∧ x ∈ split "+" d).
  { intros x. unfold rest, sorted.
    rewrite merge_sort_Permutation, elem_of_elements.
    apply elem_of_collect_names. }
  assert (Hnd_rest : NoDup rest).
  { unfold rest, sorted. rewrite merge_sort_Permutation.
    apply NoDup_elements. }
  assert (Hnd : NoDup ("<PAD>" :: control_group :: rest)).
  { apply NoDup_cons. split.
    - apply not_elem_of_cons. split; [exact Hpad|].
      intros Hin. apply Hrest in Hin as (_ & d & Hd & Hin).
      by apply (Hdata d Hd).
    - apply NoDup_cons. split; [|exact Hnd_rest].
      intros Hin. by apply Hrest in Hin as [Hc _]. }
  assert (Hbij : ∀ name i, pert_encoder v !! name = Some i
                 ↔ perts_names_unique v !! i = Some name).
  { intros name i. by apply enumerate_dict_spec. }
  exists rest. split; [reflexivity|].
  split; [apply StronglySorted_merge_sort; apply _|].
  split; [exact Hnd_rest|]. split; [exact Hrest|].
  split; [exact Hbij|]. split; [|split; [|split; [|split]]].
  - intros i Hi. destruct (lookup_lt_is_Some_2 _ _ Hi) as [name Hname].
    exists name. by apply Hbij.
  - intros a b i Ha Hb. apply Hbij in Ha, Hb. congruence.
  - by apply Hbij.
  - by apply Hbij.
  - reflexivity.
Qed.

End Vocabulary.

Lemma fresh_pert_encoder_bijection_witness :
  let v := CPA.build_pert_encoder None 7 ["drugB+drugA"; "ctrl"; "drugA"] "ctrl" in
  CPA.perts_names_unique v = ["<PAD>"; "ctrl"; "drugA"; "drugB"]
  ∧ CPA.pert_encoder v !! "drugB" = Some 3%nat
  ∧ ∃ rest,
      CPA.perts_names_unique v = "<PAD>" :: "ctrl" :: rest
      ∧ StronglySorted String.le rest ∧ NoDup rest
      ∧ (∀ x, x ∈ rest
              ↔ x ≠ "ctrl"
                ∧ ∃ d, d ∈ ["drugB+drugA"; "ctrl"; "drugA"]
                       ∧ x ∈ CPA.split "+" d)
      ∧ (∀ name i, CPA.pert_encoder v !! name = Some i
                   ↔ CPA.perts_names_unique v !! i = Some name)
      ∧ (∀ i, (i < length (CPA.perts_names_unique v))%nat →
              ∃ name, CPA.pert_encoder v !! name = Some i)
      ∧ (∀ a b i, CPA.pert_encoder v !! a = Some i →
                  CPA.pert_encoder v !! b = Some i → a = b)
      ∧ CPA.pert_encoder v !! "<PAD>" = Some 0%nat
      ∧ CPA.pert_encoder v !! "ctrl" = Some 1%nat
      ∧ CPA.PADDING_IDX v = 0%nat.
Proof.
  intros v.
  split; [reflexivity|].
  split; [reflexivity|].
  apply (fresh_pert_encoder_bijection ["drugB+drugA"; "ctrl"; "drugA"] "ctrl" 7).
  - discriminate.
  - intros d Hd. apply (bool_decide_unpack _).
    repeat (apply elem_of_cons in Hd as [->|Hd]; [vm_compute; exact I|]).
    inversion Hd.
Defined.


(** * Further properties of the modelled code *)

(** ** Loops and keyword calls *)

Lemma foldM_Ok_elem {A B : Type} (f : B → A → result B) (l : list A)
    (acc res : B) (x : A) :
  foldM f acc l = Ok res → x ∈ l → ∃ a a', f a x = Ok a'.
Proof.
  revert acc. induction l as [|y l IH]; intros acc Hrun Hx; [inversion Hx|].
  simpl in Hrun. apply bind_Ok_inv in Hrun as (acc' & Hstep & Hrun).
  apply elem_of_cons in Hx as [->|Hx]; [eauto | by eapply IH].
Qed.

Lemma foldM_total {A B : Type} (f : B → A → result B) (l : list A) (acc : B) :
  (∀ a x, x ∈ l → ∃ a', f a x = Ok a') → ∃ res, foldM f acc l = Ok res.
Proof.
  revert acc. induction l as [|y l IH]; intros acc Hstep.
  - exists acc. reflexivity.
  - destruct (Hstep acc y) as [acc' Hacc']; [by left|].
    destruct (IH acc') as [res Hres].
    { intros a x Hx. apply Hstep. by right. }
    exists res. simpl. rewrite Hacc'. exact Hres.
Qed.

(** A loop that stores one entry per element, under a key computed from
    the element. *)
Lemma foldM_insert_lookup {A V : Type} (key : A → string)
    (step : gmap string V → A → result (gmap string V)) (l : list A) :
  (∀ m x m', step m x = Ok m' → ∃ v, m' = <[key x := v]> m) →
  ∀ m res,
    foldM step m l = Ok res →
    (∀ x, x ∈ l → is_Some (res !! key x))
    ∧ (∀ k, is_Some (m !! k) → is_Some (res !! k))
    ∧ dom res = list_to_set (map key l) ∪ dom m.
Proof.
  intros Hstep. induction l as [|y l IH]; intros m res Hrun.
  - simpl in Hrun. injection Hrun as <-.
    split; [intros x Hx; inversion Hx|]. split; [auto|]. set_solver.
  - simpl in Hrun. apply bind_Ok_inv in Hrun as (m' & Hm' & Hrun).
    destruct (Hstep m y m' Hm') as [v ->].
    destruct (IH _ _ Hrun) as (Hin & Hkeep & Hdom).
    split; [|split].
    + intros x Hx. apply elem_of_cons in Hx as [->|Hx]; [|by apply Hin].
      apply Hkeep. rewrite lookup_insert_eq. eauto.
    + intros k Hk. apply Hkeep.
      destruct (decide (key y = k)) as [->|Hne].
      * rewrite lookup_insert_eq. eauto.
      * by rewrite lookup_insert_ne.
    + rewrite Hdom, dom_insert_L. simpl. set_solver.
Qed.

Lemma bind_keywords_unexpected {V : Type} (required optional : list string)
    (explicit extra : list (string * V)) (k : string) :
  k ∈ map fst (explicit ++ extra) → k ∉ (required ++ optional)%list →
  bind_keywords required optional explicit extra = Raise TypeError.
Proof.
  intros Hk Hout. unfold bind_keywords.
  destruct (existsb _ extra); [reflexivity|].
  assert (Hfalse : forallb (λ kv : string * V,
                      bool_decide (kv.1 ∈ (required ++ optional)%list))
                     (explicit ++ extra) = false).
  { apply not_true_is_false. intros Hall.
    rewrite forallb_forall in Hall.
    apply list_elem_of_fmap in Hk as (kv & -> & Hkv).
    apply list_elem_of_In in Hkv. apply Hall in Hkv.
    apply bool_decide_eq_true in Hkv. by apply Hout. }
  rewrite Hfalse. reflexivity.
Qed.

Lemma bind_keywords_dict {V : Type} (required : list string)
    (d : gmap string V) :
  dom d = list_to_set required →
  bind_keywords required [] [] (map_to_list d) = Ok d.
Proof.
  intros Hdom. unfold bind_keywords.
  assert (Hnone : existsb (λ kv : string * V,
                     bool_decide (kv.1 ∈ map fst ([] : list (string * V))))
                    (map_to_list d) = false).
  { apply not_true_is_false. intros Hex.
    apply existsb_exists in Hex as (kv & _ & Hkv).
    apply bool_decide_eq_true in Hkv. inversion Hkv. }
  rewrite Hnone. cbn [app]. rewrite app_nil_r.
  assert (Hall : forallb (λ kv : string * V, bool_decide (kv.1 ∈ required))
                   (map_to_list d) = true).
  { apply forallb_forall. intros [k v] Hkv. apply bool_decide_eq_true.
    apply list_elem_of_In, elem_of_map_to_list in Hkv. simpl.
    assert (Hk : k ∈ dom d) by (apply elem_of_dom; eauto).
    rewrite Hdom in Hk. by apply elem_of_list_to_set in Hk. }
  rewrite Hall. cbn [negb].
  assert (Hreq : forallb (λ p, bool_decide (p ∈ map fst (map_to_list d)))
                   required = true).
  { apply forallb_forall. intros p Hp. apply bool_decide_eq_true.
    apply list_elem_of_In in Hp.
    assert (Hk : p ∈ dom d) by (rewrite Hdom; by apply elem_of_list_to_set).
    apply elem_of_dom in Hk as [v Hv].
    apply list_elem_of_fmap. exists (p, v). split; [reflexivity|].
    by apply elem_of_map_to_list. }
  rewrite Hreq. cbn [negb]. by rewrite list_to_map_to_list.
Qed.

(** ** Inputs of the inference step and drug embeddings *)

Section InferenceInput.

Import CPAModule.
Context {Distribution : Type}.
Variable X_KEY : string.
Implicit Types self : t (Distribution := Distribution).

(** The loop that flattens the covariate tensors of a batch. *)
Lemma covars_loop_spec (tensors : gmap string tensor)
    (step : gmap string (list Z) → string * list string
            → result (gmap string (list Z)))
    (covs : list (string * list string)) :
  (∀ d kv, step d kv
           = (t ← getitem tensors kv.1 ≫= as_long;
              Ok (<[kv.1 := Torch.ravel t]> d))) →
  ∀ acc res,
    foldM step acc covs = Ok res →
    dom res = list_to_set (map fst covs) ∪ dom acc
    ∧ ∀ c, c ∈ map fst covs →
           ∃ v t, tensors !! c = Some v ∧ as_long v = Ok t
                  ∧ res !! c = Some (Torch.ravel t).
Proof.
  intros Hstep. induction covs as [|kv covs IH]; intros acc res Hrun.
  - simpl in Hrun. injection Hrun as <-. split; [set_solver|].
    intros c Hc. inversion Hc.
  - simpl in Hrun. apply bind_Ok_inv in Hrun as (acc' & Hacc' & Hrun).
    rewrite Hstep in Hacc'.
    apply bind_Ok_inv in Hacc' as (t & Ht & Hacc').
    apply bind_Ok_inv in Ht as (v & Hv & Ht).
    apply getitem_Ok in Hv. injection Hacc' as <-.
    destruct (IH _ _ Hrun) as (Hdom & Hval). split.
    + rewrite Hdom, dom_insert_L. simpl. set_solver.
    + intros c Hc. destruct (decide (c ∈ map fst covs)) as [Hin|Hout].
      * by apply Hval.
      * simpl in Hc. apply elem_of_cons in Hc as [->|Hc]; [|done].
        exists v, t. split; [exact Hv|]. split; [exact Ht|].
        assert (Hkeep : res !! kv.1 = <[kv.1 := Torch.ravel t]> acc !! kv.1).
        { clear Hval Hdom IH. revert Hrun Hout.
          generalize (<[kv.1 := Torch.ravel t]> acc). clear acc Hv Ht.
          induction covs as [|kv' covs IH]; intros a Hrun Hout.
          - simpl in Hrun. by injection Hrun as <-.
          - simpl in Hrun. apply bind_Ok_inv in Hrun as (a' & Ha' & Hrun).
            rewrite Hstep in Ha'.
            apply bind_Ok_inv in Ha' as (t' & _ & Ha'). injection Ha' as <-.
            simpl in Hout. apply not_elem_of_cons in Hout as [Hne Hout].
            rewrite (IH _ Hrun Hout). by apply lookup_insert_ne. }
        rewrite Hkeep. apply lookup_insert_eq.
Qed.

Lemma covars_loop_total (tensors : gmap string tensor)
    (step : gmap string (list Z) → string * list string
            → result (gmap string (list Z)))
    (covs : list (string * list string)) (acc : gmap string (list Z)) :
  (∀ d kv, step d kv
           = (t ← getitem tensors kv.1 ≫= as_long;
              Ok (<[kv.1 := Torch.ravel t]> d))) →
  (∀ c, c ∈ map fst covs → ∃ t, tensors !! c = Some (LongT t)) →
  ∃ res, foldM step acc covs = Ok res.
Proof.
  intros Hstep Hall. apply foldM_total. intros a kv Hkv.
  destruct (Hall kv.1) as [t Ht]; [by apply list_elem_of_fmap_2|].
  eexists. rewrite Hstep. unfold getitem. rewrite Ht. reflexivity.
Qed.

(** The first covariate without a tensor stops the loop with [KeyError]. *)
Lemma covars_loop_KeyError (tensors : gmap string tensor)
    (step : gmap string (list Z) → string * list string
            → result (gmap string (list Z)))
    (covs : list (string * list string)) (acc : gmap string (list Z)) :
  (∀ d kv, step d kv
           = (t ← getitem tensors kv.1 ≫= as_long;
              Ok (<[kv.1 := Torch.ravel t]> d))) →
  (∀ c v, c ∈ map fst covs → tensors !! c = Some v → ∃ t, v = LongT t) →
  (∃ c, c ∈ map fst covs ∧ tensors !! c = None) →
  ∃ c, c ∈ map fst covs ∧ tensors !! c = None
       ∧ foldM step acc covs = Raise (KeyError c).
Proof.
  intros Hstep. revert acc.
  induction covs as [|kv covs IH]; intros acc Htyped (c & Hc & Hnone).
  - inversion Hc.
  - simpl. rewrite Hstep. unfold getitem at 1.
    destruct (tensors !! kv.1) as [v|] eqn:Hv.
    + destruct (Htyped kv.1 v) as [t ->]; [by left | exact Hv|].
      cbn [mbind result_bind as_long].
      destruct (IH (<[kv.1 := Torch.ravel t]> acc)) as (c' & Hc' & Hn' & Hrun).
      * intros c0 v0 Hc0. apply Htyped. by right.
      * exists c. split; [|exact Hnone]. simpl in Hc.
        apply elem_of_cons in Hc as [->|Hc]; [congruence | exact Hc].
      * exists c'. split; [by right|]. split; [exact Hn' | exact Hrun].
    + exists kv.1. split; [by left|]. split; [exact Hv | reflexivity].
Qed.

(** X1: on a batch that holds the expression matrix, the perturbation
    indices, the dosages and an integer tensor for every covariate,
    [_get_inference_input] returns these three tensors unchanged and a
    covariate dictionary whose keys are exactly the covariate names, each
    bound to its flattened tensor. *)
Theorem get_inference_input_spec self (tensors : gmap string tensor)
    (x : list (list R)) (drug_name : list (list Z)) (dose_value : list (list R)) :
  tensors !! X_KEY = Some (FloatT x) →
  tensors !! "drug_name" = Some (LongT drug_name) →
  tensors !! "dose_value" = Some (FloatT dose_value) →
  (∀ c, c ∈ map fst (covars_encoder self) → ∃ t, tensors !! c = Some (LongT t)) →
  ∃ inputs,
    _get_inference_input X_KEY self tensors = Ok inputs
    ∧ input_genes inputs = x
    ∧ input_drugs inputs = drug_name
    ∧ input_doses inputs = dose_value
    ∧ dom (input_covars_dict inputs) = list_to_set (map fst (covars_encoder self))
    ∧ ∀ c t, c ∈ map fst (covars_encoder self) →
             tensors !! c = Some (LongT t) →
             input_covars_dict inputs !! c = Some (Torch.ravel t).
Proof.
  intros Hx Hd Hds Hcovs. unfold _get_inference_input, getitem.
  rewrite Hx, Hd, Hds. cbn [mbind result_bind as_float as_long].
  match goal with
  | |- context [foldM ?f ∅ ?l] =>
      destruct (covars_loop_total tensors f l ∅ (λ _ _, eq_refl) Hcovs)
        as [covars_dict Hloop];
      pose proof (covars_loop_spec tensors f l (λ _ _, eq_refl) _ _ Hloop)
        as [Hdom Hval]
  end.
  rewrite Hloop. cbn [mbind result_bind].
  eexists. split; [reflexivity|]. cbn.
  do 3 (split; [reflexivity|]). split.
  - rewrite Hdom. set_solver.
  - intros c t Hc Ht. destruct (Hval c Hc) as (v & t' & Hv & Ht' & Hres).
    rewrite Ht in Hv. injection Hv as <-. cbn [as_long] in Ht'. congruence.
Qed.

(** X3: although the drug network reads only the perturbation indices and
    the dosages, [get_drug_embeddings] needs a tensor for every covariate:
    on a batch that lacks one it raises [KeyError] for a missing covariate. *)
Theorem get_drug_embeddings_needs_covariates self (tensors : gmap string tensor)
    (x : list (list R)) (drug_name : list (list Z)) (dose_value : list (list R)) :
  tensors !! X_KEY = Some (FloatT x) →
  tensors !! "drug_name" = Some (LongT drug_name) →
  tensors !! "dose_value" = Some (FloatT dose_value) →
  (∀ c v, c ∈ map fst (covars_encoder self) → tensors !! c = Some v →
          ∃ t, v = LongT t) →
  (∃ c, c ∈ map fst (covars_encoder self) ∧ tensors !! c = None) →
  ∃ c, c ∈ map fst (covars_encoder self) ∧ tensors !! c = None
       ∧ get_drug_embeddings X_KEY self tensors = Raise (KeyError c).
Proof.
  intros Hx Hd Hds Htyped Hmissing.
  unfold get_drug_embeddings, _get_inference_input, getitem.
  rewrite Hx, Hd, Hds. cbn [mbind result_bind as_float as_long].
  match goal with
  | |- context [foldM ?f ∅ ?l] =>
      destruct (covars_loop_KeyError tensors f l ∅ (λ _ _, eq_refl) Htyped
                  Hmissing) as (c & Hc & Hnone & Hloop)
  end.
  exists c. split; [exact Hc|]. split; [exact Hnone|].
  rewrite Hloop. reflexivity.
Qed.

End InferenceInput.

Lemma get_inference_input_spec_witness :
  ∃ self,
    CPAModule.__init__ Examples.sub 1 2 [("cell_type", ["A"; "B"])] 1 "gauss"
      "linear" false = Ok self
    ∧ ∃ inputs,
        CPAModule._get_inference_input "X" self
          (Examples.batch2 "X" "cell_type") = Ok inputs
        ∧ CPAModule.input_genes inputs = Examples.genes2
        ∧ CPAModule.input_drugs inputs = Examples.drugs2
        ∧ CPAModule.input_doses inputs = Examples.doses2
        ∧ dom (CPAModule.input_covars_dict inputs)
          = list_to_set (map fst (CPAModule.covars_encoder self))
        ∧ ∀ c t, c ∈ map fst (CPAModule.covars_encoder self) →
                 Examples.batch2 "X" "cell_type" !! c = Some (LongT t) →
                 CPAModule.input_covars_dict inputs !! c = Some (Torch.ravel t).
Proof.
  eexists. split; [reflexivity|].
  apply (get_inference_input_spec "X" _ (Examples.batch2 "X" "cell_type")
           Examples.genes2 Examples.drugs2 Examples.doses2);
    [reflexivity | reflexivity | reflexivity |].
  intros c Hc. apply list_elem_of_singleton in Hc as ->.
  eexists. reflexivity.
Defined.

Lemma get_drug_embeddings_needs_covariates_witness :
  ∃ self,
    CPAModule.__init__ Examples.sub 1 2 [("cell_type", ["A"; "B"])] 1 "gauss"
      "linear" false = Ok self
    ∧ ∃ c, c ∈ map fst (CPAModule.covars_encoder self)
           ∧ Examples.batch2 "X" "batch" !! c = None
           ∧ CPAModule.get_drug_embeddings "X" self
               (Examples.batch2 "X" "batch") = Raise (KeyError c).
Proof.
  eexists. split; [reflexivity|].
  apply (get_drug_embeddings_needs_covariates "X" _
           (Examples.batch2 "X" "batch")
           Examples.genes2 Examples.drugs2 Examples.doses2);
    [reflexivity | reflexivity | reflexivity | |].
  - intros c v Hc Hv. apply list_elem_of_singleton in Hc as ->.
    vm_compute in Hv. discriminate Hv.
  - exists "cell_type". split; [by left | reflexivity].
Defined.

(** ** The generative step and its keyword call *)

Section Generative.

Import CPAModule.
Context {Distribution : Type}.
Implicit Types sub : substrate (Distribution := Distribution).
Implicit Types self : t (Distribution := Distribution).

(** The classifier loop of [generative]: its result holds, for every
    covariate, the output of that covariate's head on the basal latent. *)
Lemma covars_pred_spec (clfs : gmap string (list (list R) → list (list R)))
    (latent_basal : list (list R)) (covs : list (string * list string)) :
  ∀ (acc preds : gmap string (list (list R))),
    foldM (λ acc (kv : string * list string),
             let covar := kv.1 in
             clf ← getitem clfs covar;
             Ok (<[covar := clf latent_basal]> acc)) acc covs = Ok preds →
    dom preds = list_to_set (map fst covs) ∪ dom acc
    ∧ ∀ c, c ∈ map fst covs →
           ∃ clf, clfs !! c = Some clf ∧ preds !! c = Some (clf latent_basal).
Proof.
  induction covs as [|kv covs IH]; intros acc preds Hrun.
  - simpl in Hrun. injection Hrun as <-. split; [set_solver|].
    intros c Hc. inversion Hc.
  - simpl in Hrun. apply bind_Ok_inv in Hrun as (acc' & Hacc' & Hrun).
    apply bind_Ok_inv in Hacc' as (clf & Hclf & Hacc').
    apply getitem_Ok in Hclf. injection Hacc' as <-.
    destruct (IH _ _ Hrun) as (Hdom & Hval). split.
    + rewrite Hdom, dom_insert_L. simpl. set_solver.
    + intros c Hc. destruct (decide (c ∈ map fst covs)) as [Hin|Hout];
        [by apply Hval|].
      simpl in Hc. apply elem_of_cons in Hc as [->|Hc]; [|done].
      exists clf. split; [exact Hclf|].
      assert (Hkeep : ∀ a p : gmap string (list (list R)),
                foldM (λ acc (kv : string * list string),
                         let covar := kv.1 in
                         clf ← getitem clfs covar;
                         Ok (<[covar := clf latent_basal]> acc)) a covs = Ok p →
                p !! kv.1 = a !! kv.1).
      { clear -Hout. induction covs as [|kv' covs IH]; intros a p Hrun.
        - simpl in Hrun. by injection Hrun as <-.
        - simpl in Hrun. apply bind_Ok_inv in Hrun as (a' & Ha' & Hrun).
          apply bind_Ok_inv in Ha' as (clf' & _ & Ha'). injection Ha' as <-.
          simpl in Hout. apply not_elem_of_cons in Hout as [Hne Hout].
          rewrite (IH Hout _ _ Hrun). by apply lookup_insert_ne. }
      rewrite (Hkeep _ _ Hrun). apply lookup_insert_eq.
Qed.

(** X5: whenever [generative] returns, the keys of its result are exactly
    "dist_px", "drugs_pred", "covars_pred" for the count likelihood and
    "means", "variances", "drugs_pred", "covars_pred" otherwise, and the
    covariate logits have exactly one entry per covariate name. *)
Theorem generative_keys self (latent latent_basal : list (list R))
    (outputs : gmap string gen_value) :
  generative self latent latent_basal = Ok outputs →
  ∃ preds,
    outputs !! "covars_pred" = Some (GPreds preds)
    ∧ dom preds = list_to_set (map fst (covars_encoder self))
    ∧ dom outputs
      = (if String.eqb (loss_ae self) "nb"
         then {["dist_px"; "drugs_pred"; "covars_pred"]}
         else {["means"; "variances"; "drugs_pred"; "covars_pred"]}
         : gset string).
Proof.
  unfold generative. intros Hrun.
  apply bind_Ok_inv in Hrun as (preds & Hpreds & Hrun).
  pose proof (covars_pred_spec _ _ _ _ _ Hpreds) as [Hdom _].
  exists preds. destruct (String.eqb (loss_ae self) "nb").
  - destruct (decoder self) as [dec|dec]; [discriminate|].
    destruct (px_r self) as [r|]; [|discriminate]. injection Hrun as <-.
    split; [apply lookup_insert_eq|]. split; [set_solver|].
    rewrite !dom_insert_L, dom_empty_L. set_solver.
  - destruct (decoder self) as [dec|dec]; [|discriminate].
    destruct (dec latent) as [means variances]. injection Hrun as <-.
    split; [apply lookup_insert_eq|]. split; [set_solver|].
    rewrite !dom_insert_L, dom_empty_L. set_solver.
Qed.

(** The dictionary built by [_get_generative_input]. *)
Lemma get_generative_input_dict self (tensors : gmap string tensor)
    (out : inference_outputs) (input_dict : gmap string (option (list (list R)))) :
  _get_generative_input self tensors out = Ok input_dict →
  input_dict
  = <["latent_basal" := Some (latent_basal out)]>
      (<["latent" := Some (latent out)]>
         (if String.eqb (loss_ae self) "nb"
          then <["library" := library out]> ∅ else ∅)).
Proof.
  unfold _get_generative_input. intros Hrun.
  apply bind_Ok_inv in Hrun as (d & _ & Hrun). by injection Hrun as <-.
Qed.

(** X6: for a module with the count likelihood, the dictionary returned by
    [_get_generative_input] carries the key "library", which is no
    parameter of [generative]: passing the dictionary to [generative] as
    keyword arguments raises [TypeError]. *)
Theorem generative_call_nb_TypeError self (tensors : gmap string tensor)
    (out : inference_outputs) (input_dict : gmap string (option (list (list R)))) :
  loss_ae self = "nb" →
  _get_generative_input self tensors out = Ok input_dict →
  is_Some (input_dict !! "library")
  ∧ call_generative self input_dict = Raise TypeError.
Proof.
  intros Hnb Hdict. apply get_generative_input_dict in Hdict.
  rewrite Hnb in Hdict. cbn in Hdict. subst input_dict.
  assert (Hlib : (<["latent_basal" := Some (latent_basal out)]>
                    (<["latent" := Some (latent out)]>
                       (<["library" := library out]>
                          (∅ : gmap string (option (list (list R))))))) !! "library"
                 = Some (library out)).
  { rewrite !lookup_insert_ne by done. apply lookup_insert_eq. }
  split; [rewrite Hlib; eauto|].
  unfold call_generative.
  rewrite (bind_keywords_unexpected generative_parameters [] [] _ "library").
  - reflexivity.
  - cbn [app]. apply list_elem_of_fmap. exists ("library", library out).
    split; [reflexivity|]. by apply elem_of_map_to_list.
  - apply (bool_decide_unpack _). vm_compute. exact I.
Qed.

(** X7: for a module with another likelihood, the dictionary returned by
    [_get_generative_input] binds exactly the parameters of [generative]:
    the keyword call is [generative] on the combined and the basal latent
    of the inference outputs. *)
Theorem generative_call_gauss self (tensors : gmap string tensor)
    (out : inference_outputs) (input_dict : gmap string (option (list (list R)))) :
  loss_ae self ≠ "nb" →
  _get_generative_input self tensors out = Ok input_dict →
  dom input_dict = {["latent"; "latent_basal"]}
  ∧ call_generative self input_dict
    = generative self (latent out) (latent_basal out).
Proof.
  intros Hnb Hdict. apply get_generative_input_dict in Hdict.
  apply String.eqb_neq in Hnb. rewrite Hnb in Hdict. subst input_dict.
  assert (Hdom : dom (<["latent_basal" := Some (latent_basal out)]>
                        (<["latent" := Some (latent out)]>
                           (∅ : gmap string (option (list (list R))))))
                 = ({["latent"; "latent_basal"]} : gset string)).
  { rewrite !dom_insert_L, dom_empty_L. set_solver. }
  split; [exact Hdom|].
  unfold call_generative. rewrite bind_keywords_dict.
  - unfold getitem. cbn [mbind result_bind].
    rewrite (lookup_insert_ne _ "latent_basal" "latent") by congruence.
    rewrite lookup_insert_eq. cbn [mbind result_bind].
    rewrite lookup_insert_eq. reflexivity.
  - rewrite Hdom. unfold generative_parameters. set_solver.
Qed.

End Generative.

Lemma generative_keys_witness :
  ∃ self outputs,
    CPAModule.__init__ Examples.sub 1 2 [("cell_type", ["A"; "B"])] 1 "nb"
      "linear" false = Ok self
    ∧ CPAModule.generative self Examples.genes2 Examples.genes2 = Ok outputs
    ∧ ∃ preds,
        outputs !! "covars_pred" = Some (CPAModule.GPreds preds)
        ∧ dom preds = list_to_set (map fst (CPAModule.covars_encoder self))
        ∧ dom outputs
          = (if String.eqb (CPAModule.loss_ae self) "nb"
             then {["dist_px"; "drugs_pred"; "covars_pred"]}
             else {["means"; "variances"; "drugs_pred"; "covars_pred"]}
             : gset string).
Proof.
  eexists _, _.
  split; [reflexivity|].
  match goal with
  | |- ?run = Ok ?out ∧ _ => assert (Hrun : run = Ok out) by reflexivity
  end.
  split; [exact Hrun|].
  exact (generative_keys _ _ _ _ Hrun).
Defined.

Lemma generative_call_nb_TypeError_witness :
  ∃ self out input_dict,
    CPAModule.__init__ Examples.sub 1 2 [("cell_type", ["A"; "B"])] 1 "nb"
      "linear" false = Ok self
    ∧ CPAModule.inference self Examples.genes2 Examples.drugs2 Examples.doses2
        (Examples.covars2 "cell_type") = Ok out
    ∧ CPAModule._get_generative_input self (Examples.batch2 "X" "cell_type") out
      = Ok input_dict
    ∧ is_Some (input_dict !! "library")
    ∧ CPAModule.call_generative self input_dict = Raise TypeError.
Proof.
  eexists _, _, _.
  split; [reflexivity|].
  split; [reflexivity|].
  match goal with
  | |- CPAModule._get_generative_input ?s ?t ?o = Ok ?d ∧ _ =>
      assert (Hd : CPAModule._get_generative_input s t o = Ok d)
        by reflexivity;
      split; [exact Hd|];
      apply (generative_call_nb_TypeError s t o d eq_refl Hd)
  end.
Defined.

Lemma generative_call_gauss_witness :
  ∃ self out input_dict,
    CPAModule.__init__ Examples.sub 1 2 [("cell_type", ["A"; "B"])] 1 "gauss"
      "linear" false = Ok self
    ∧ CPAModule.inference self Examples.genes2 Examples.drugs2 Examples.doses2
        (Examples.covars2 "cell_type") = Ok out
    ∧ CPAModule._get_generative_input self (Examples.batch2 "X" "cell_type") out
      = Ok input_dict
    ∧ dom input_dict = {["latent"; "latent_basal"]}
    ∧ CPAModule.call_generative self input_dict
      = CPAModule.generative self (CPAModule.latent out)
          (CPAModule.latent_basal out).
Proof.
  eexists _, _, _.
  split; [reflexivity|].
  split; [reflexivity|].
  match goal with
  | |- CPAModule._get_generative_input ?s ?t ?o = Ok ?d ∧ _ =>
      assert (Hd : CPAModule._get_generative_input s t o = Ok d)
        by reflexivity;
      split; [exact Hd|];
      apply (generative_call_gauss s t o d); [discriminate | exact Hd]
  end.
Defined.

(** ** The adversarial step: keys and success *)


(** What a successful run of [inference] says of its arguments: the
    covariate dictionary is returned as it came, and every covariate has an
    embedding table, an index vector within the table and as many embedded
    elements as [view] asks for. *)
Lemma inference_Ok_inv {Distribution : Type}
    (self : CPAModule.t (Distribution := Distribution))
    (genes : list (list R)) (drugs : list (list Z)) (doses : list (list R))
    (covars_dict : gmap string (list Z)) (out : CPAModule.inference_outputs) :
  CPAModule.inference self genes drugs doses covars_dict = Ok out →
  CPAModule.covars_dict out = covars_dict
  ∧ ∀ c, c ∈ map fst (CPAModule.covars_encoder self) →
         ∃ emb idx rows,
           CPAModule.covars_embedding self !! c = Some emb
           ∧ covars_dict !! c = Some idx
           ∧ Torch.embedding emb idx = Ok rows
           ∧ Torch.view_check rows (length genes) (CPAModule.n_latent self)
             = Ok tt.
Proof.
  intros Hrun. unfold CPAModule.inference in Hrun.
  apply bind_Ok_inv in Hrun as ([dist basal] & _ & Hrun).
  apply bind_Ok_inv in Hrun as (lib & _ & Hrun).
  apply bind_Ok_inv in Hrun as (lcs & Hloop & Hrun).
  apply bind_Ok_inv in Hrun as (stacked & _ & Hrun).
  apply bind_Ok_inv in Hrun as (treatment & _ & Hrun).
  apply bind_Ok_inv in Hrun as (with_covs & _ & Hrun).
  apply bind_Ok_inv in Hrun as (lat & _ & Hrun).
  injection Hrun as <-. split; [reflexivity|].
  intros c Hc. apply list_elem_of_fmap in Hc as (kv & -> & Hkv).
  destruct (foldM_Ok_elem _ _ _ _ kv Hloop Hkv) as (a & a' & Hstep).
  cbn beta zeta in Hstep.
  apply bind_Ok_inv in Hstep as (emb & Hemb & Hstep).
  apply bind_Ok_inv in Hstep as (idx & Hidx & Hstep).
  apply bind_Ok_inv in Hstep as (rows & Hrows & Hstep).
  apply bind_Ok_inv in Hstep as ([] & Hview & _).
  apply getitem_Ok in Hemb, Hidx. exists emb, idx, rows. auto.
Qed.

Section AdversarialRun.

Import CPAModule.
Context {Distribution : Type}.
Variable autograd_grad : list (list R) → list (list R) → result (list (list R)).
Implicit Types sub : substrate (Distribution := Distribution).
Implicit Types self : t (Distribution := Distribution).

Lemma adv_loop_step self (covars_pred : gmap string (list (list R)))
    (covars_dict : gmap string (list Z)) (m m' : gmap string R) (covar : string) :
  (pred ← getitem covars_pred covar;
   target ← getitem covars_dict covar;
   l ← adv_loss_covariates self pred target;
   Ok (<["adv_" +:+ covar := l]> m)) = Ok m' →
  ∃ v, m' = <["adv_" +:+ covar := v]> m.
Proof.
  intros H. apply bind_Ok_inv in H as (p & _ & H).
  apply bind_Ok_inv in H as (tg & _ & H).
  apply bind_Ok_inv in H as (l & _ & H). injection H as <-. eauto.
Qed.

Lemma penalty_loop_step (covars_pred : gmap string (list (list R)))
    (latent_basal : list (list R)) (m m' : gmap string R) (covar : string) :
  (pred ← getitem covars_pred covar;
   p ← grad_penalty autograd_grad pred latent_basal;
   Ok (<["penalty_" +:+ covar := p]> m)) = Ok m' →
  ∃ v, m' = <["penalty_" +:+ covar := v]> m.
Proof.
  intros H. apply bind_Ok_inv in H as (p & _ & H).
  apply bind_Ok_inv in H as (l & _ & H). injection H as <-. eauto.
Qed.

(** X8: the mapping returned by [adversarial_loss] has exactly the keys
    "adv_drugs", "adv_loss", "penalty_drugs", "penalty_adv" and, for every
    covariate name [c], "adv_c" and "penalty_c". *)
Theorem adversarial_loss_keys self (tensors : gmap string tensor)
    (io : inference_outputs) (gen : gmap string gen_value)
    (res : gmap string R) :
  adversarial_loss autograd_grad self tensors io gen = Ok res →
  dom res
  = {["adv_drugs"; "adv_loss"; "penalty_drugs"; "penalty_adv"]}
    ∪ list_to_set (map (String.app "adv_") (map fst (covars_encoder self)))
    ∪ list_to_set (map (String.app "penalty_") (map fst (covars_encoder self))).
Proof.
  intros Hrun. unfold adversarial_loss in Hrun.
  apply bind_Ok_inv in Hrun as (drug_name & _ & Hrun).
  apply bind_Ok_inv in Hrun as (drugs_pred & _ & Hrun).
  apply bind_Ok_inv in Hrun as (covars_pred & _ & Hrun).
  apply bind_Ok_inv in Hrun as (m0 & Hm0 & Hrun).
  apply bind_Ok_inv in Hrun as (l & _ & Hrun).
  apply bind_Ok_inv in Hrun as (adv_drugs & _ & Hrun).
  apply bind_Ok_inv in Hrun as (adv_terms & _ & Hrun).
  apply bind_Ok_inv in Hrun as (m3 & Hm3 & Hrun).
  apply bind_Ok_inv in Hrun as (p & _ & Hrun).
  apply bind_Ok_inv in Hrun as (penalty_drugs & _ & Hrun).
  apply bind_Ok_inv in Hrun as (penalty_terms & _ & Hrun).
  injection Hrun as <-.
  apply (foldM_insert_lookup (String.app "adv_")) in Hm0 as (_ & _ & Hd0);
    [|intros m x m' Hs; by apply adv_loop_step in Hs].
  apply (foldM_insert_lookup (String.app "penalty_")) in Hm3 as (_ & _ & Hd3);
    [|intros m x m' Hs; by apply penalty_loop_step in Hs].
  rewrite !dom_insert_L, Hd3, !dom_insert_L, Hd0, dom_empty_L.
  set_solver.
Qed.




End AdversarialRun.

Lemma adversarial_loss_keys_witness :
  ∃ self out gen res,
    CPAModule.__init__ Examples.sub 1 2 [("cell_type", ["A"; "B"])] 1 "gauss"
      "linear" false = Ok self
    ∧ CPAModule.inference self Examples.genes2 Examples.drugs2 Examples.doses2
        (Examples.covars2 "cell_type") = Ok out
    ∧ CPAModule.generative self (CPAModule.latent out)
        (CPAModule.latent_basal out) = Ok gen
    ∧ CPAModule.adversarial_loss Examples.grad1 self
        (Examples.batch2 "X" "cell_type") out gen = Ok res
    ∧ dom res
      = {["adv_drugs"; "adv_loss"; "penalty_drugs"; "penalty_adv"]}
        ∪ list_to_set (map (String.app "adv_")
                         (map fst (CPAModule.covars_encoder self)))
        ∪ list_to_set (map (String.app "penalty_")
                         (map fst (CPAModule.covars_encoder self))).
Proof.
  eexists _, _, _, _.
  split; [reflexivity|].
  split; [reflexivity|].
  split; [reflexivity|].
  match goal with
  | |- ?run = Ok ?res ∧ _ =>
      assert (Hrun : run = Ok res) by reflexivity
  end.
  split; [exact Hrun|].
  exact (adversarial_loss_keys Examples.grad1 _ _ _ _ _ Hrun).
Defined.


(** ** Inference: edge cases *)

Section InferenceEdges.

Import CPAModule.
Context {Distribution : Type}.
Implicit Types sub : substrate (Distribution := Distribution).
Implicit Types self : t (Distribution := Distribution).

(** X10: a module constructed without covariates cannot run [inference]:
    whatever the batch, the list of covariate embeddings is empty and
    [torch.cat] refuses it. *)
Theorem inference_without_covariates sub (n_genes n_drugs n_latent : nat)
    (loss doser_type : string) (variational : bool) self
    (genes : list (list R)) (drugs : list (list Z)) (doses : list (list R))
    (covars_dict : gmap string (list Z)) :
  __init__ sub n_genes n_drugs [] n_latent loss doser_type variational
  = Ok self →
  inference self genes drugs doses covars_dict
  = Raise (RuntimeError "torch.cat(): expected a non-empty list of Tensors").
Proof.
  intros Hinit. unfold __init__ in Hinit.
  apply bind_Ok_inv in Hinit as ([dec r] & _ & Hinit).
  apply bind_Ok_inv in Hinit as (dn & _ & Hinit).
  injection Hinit as <-. unfold inference.
  cbn [CPAModule.variational CPAModule.encoder CPAModule.loss_ae
       CPAModule.l_encoder CPAModule.covars_encoder].
  destruct variational.
  - destruct (new_Encoder sub n_genes n_latent genes) as [[qz_m qz_v] z].
    cbn [mbind result_bind]. destruct (String.eqb loss "nb"); reflexivity.
  - cbn [mbind result_bind]. destruct (String.eqb loss "nb"); reflexivity.
Qed.

Lemma embedding_in_range (weight : list (list R)) (idx : list Z)
    (rows : list (list R)) :
  Torch.embedding weight idx = Ok rows →
  Forall (λ i, (0 ≤ i < Z.of_nat (length weight))%Z) idx
  ∧ length rows = length idx.
Proof.
  intros H. apply mapM_Ok_Forall2 in H. split.
  - induction H as [|i row idx rows Hi _ IH]; constructor; [|exact IH].
    destruct (i <? 0)%Z eqn:Hneg; [discriminate|].
    apply Z.ltb_ge in Hneg.
    destruct (weight !! Z.to_nat i) eqn:Hrow; [|discriminate].
    apply lookup_lt_Some in Hrow. lia.
  - symmetry. by eapply Forall2_length.
Qed.

(** X11: when [inference] returns, every covariate of the module had an
    index vector in the batch, every index was within the covariate's
    embedding table, and the embedded rows had [batch_size * n_latent]
    elements in total. *)
Theorem inference_indices_in_range self
    (genes : list (list R)) (drugs : list (list Z)) (doses : list (list R))
    (covars_dict : gmap string (list Z)) (out : inference_outputs) :
  inference self genes drugs doses covars_dict = Ok out →
  ∀ c, c ∈ map fst (covars_encoder self) →
    ∃ emb idx rows,
      covars_embedding self !! c = Some emb
      ∧ covars_dict !! c = Some idx
      ∧ Forall (λ i, (0 ≤ i < Z.of_nat (length emb))%Z) idx
      ∧ Torch.embedding emb idx = Ok rows
      ∧ length rows = length idx
      ∧ Torch.numel rows = (length genes * n_latent self)%nat.
Proof.
  intros Hrun c Hc.
  destruct (inference_Ok_inv _ _ _ _ _ _ Hrun) as [_ Hall].
  destruct (Hall c Hc) as (emb & idx & rows & Hemb & Hidx & Hrows & Hview).
  destruct (embedding_in_range _ _ _ Hrows) as [Hrange Hlen].
  exists emb, idx, rows. repeat (split; [assumption|]).
  unfold Torch.view_check in Hview.
  destruct (Torch.numel rows =? length genes * n_latent self)%nat eqn:E;
    [|discriminate].
  by apply Nat.eqb_eq in E.
Qed.

(** X12: the loss names "gauss" and "mse" select the same computation: two
    modules constructed alike but for that name have the same [inference],
    [generative] and [loss], so that "mse" is the Gaussian likelihood under
    another name. *)
Theorem mse_is_gauss sub (n_genes n_drugs : nat)
    (covs : list (string * list string)) (n_latent : nat)
    (doser_type : string) (variational : bool) (X_KEY : string) self :
  __init__ sub n_genes n_drugs covs n_latent "gauss" doser_type variational
  = Ok self →
  ∃ self',
    __init__ sub n_genes n_drugs covs n_latent "mse" doser_type variational
    = Ok self'
    ∧ loss_ae self' = "mse"
    ∧ (∀ genes drugs doses covars_dict,
         inference self' genes drugs doses covars_dict
         = inference self genes drugs doses covars_dict)
    ∧ (∀ latent latent_basal,
         generative self' latent latent_basal
         = generative self latent latent_basal)
    ∧ (∀ tensors generative_outputs,
         loss X_KEY self' tensors generative_outputs
         = loss X_KEY self tensors generative_outputs).
Proof.
  intros Hinit. unfold __init__ in *.
  cbn [str_in existsb String.eqb Ascii.eqb Bool.eqb orb] in *.
  cbn [mbind result_bind] in *.
  destruct (new_DrugNetwork sub n_drugs n_latent doser_type) as [dn|e];
    [|discriminate].
  cbn [mbind result_bind] in *. injection Hinit as <-.
  eexists. split; [reflexivity|]. split; [reflexivity|].
  split; [|split]; reflexivity.
Qed.

End InferenceEdges.

Lemma inference_without_covariates_witness :
  ∃ self,
    CPAModule.__init__ Examples.sub 1 2 [] 1 "gauss" "linear" false = Ok self
    ∧ CPAModule.inference self Examples.genes2 Examples.drugs2 Examples.doses2
        ∅
      = Raise (RuntimeError "torch.cat(): expected a non-empty list of Tensors").
Proof.
  eexists.
  match goal with
  | |- ?init = Ok ?self ∧ _ =>
      assert (Hinit : init = Ok self) by reflexivity
  end.
  split; [exact Hinit|].
  exact (inference_without_covariates _ _ _ _ _ _ _ _ Examples.genes2
           Examples.drugs2 Examples.doses2 ∅ Hinit).
Defined.

Lemma inference_indices_in_range_witness :
  ∃ self out,
    CPAModule.__init__ Examples.sub 1 2 [("cell_type", ["A"; "B"])] 1 "gauss"
      "linear" false = Ok self
    ∧ CPAModule.inference self Examples.genes2 Examples.drugs2 Examples.doses2
        (Examples.covars2 "cell_type") = Ok out
    ∧ ∀ c, c ∈ map fst (CPAModule.covars_encoder self) →
        ∃ emb idx rows,
          CPAModule.covars_embedding self !! c = Some emb
          ∧ Examples.covars2 "cell_type" !! c = Some idx
          ∧ Forall (λ i, (0 ≤ i < Z.of_nat (length emb))%Z) idx
          ∧ Torch.embedding emb idx = Ok rows
          ∧ length rows = length idx
          ∧ Torch.numel rows
            = (length Examples.genes2 * CPAModule.n_latent self)%nat.
Proof.
  eexists _, _.
  split; [reflexivity|].
  match goal with
  | |- ?run = Ok ?out ∧ _ =>
      assert (Hrun : run = Ok out) by reflexivity
  end.
  split; [exact Hrun|].
  exact (inference_indices_in_range _ _ _ _ _ _ Hrun).
Defined.

Lemma mse_is_gauss_witness :
  ∃ self,
    CPAModule.__init__ Examples.sub 1 2 [("cell_type", ["A"; "B"])] 1 "gauss"
      "linear" false = Ok self
    ∧ ∃ self',
        CPAModule.__init__ Examples.sub 1 2 [("cell_type", ["A"; "B"])] 1 "mse"
          "linear" false = Ok self'
        ∧ CPAModule.loss_ae self' = "mse"
        ∧ (∀ genes drugs doses covars_dict,
             CPAModule.inference self' genes drugs doses covars_dict
             = CPAModule.inference self genes drugs doses covars_dict)
        ∧ (∀ latent latent_basal,
             CPAModule.generative self' latent latent_basal
             = CPAModule.generative self latent latent_basal)
        ∧ (∀ tensors generative_outputs,
             CPAModule.loss "X" self' tensors generative_outputs
             = CPAModule.loss "X" self tensors generative_outputs).
Proof.
  eexists.
  match goal with
  | |- ?init = Ok ?self ∧ _ =>
      assert (Hinit : init = Ok self) by reflexivity
  end.
  split; [exact Hinit|].
  exact (mse_is_gauss _ _ _ _ _ _ _ "X" _ Hinit).
Defined.

(** ** [setup_anndata]: the perturbation and dosage arrays *)

Section SetupArrays.

Import CPA.

Lemma split_nonempty (sep : ascii) (s : string) : split sep s ≠ [].
Proof.
  induction s as [|c s IH]; cbn [split]; [discriminate|].
  destruct (Ascii.eqb c sep); [discriminate|].
  destruct (split sep s); discriminate.
Qed.

Lemma join_cons (sep x : string) (l : list string) :
  l ≠ [] → join sep (x :: l) = x +:+ sep +:+ join sep l.
Proof. destruct l; [done | reflexivity]. Qed.

(** Joining the pieces of a string gives the string back. *)
Lemma join_split (sep : ascii) (s : string) :
  join (String sep EmptyString) (split sep s) = s.
Proof.
  induction s as [|c s IH]; [reflexivity|]. cbn [split].
  pose proof (split_nonempty sep s) as Hne.
  destruct (Ascii.eqb c sep) eqn:E.
  - apply Ascii.eqb_eq in E as ->. rewrite join_cons by exact Hne.
    rewrite IH. reflexivity.
  - destruct (split sep s) as [|tok toks]; [done|].
    destruct toks as [|tok' toks].
    + cbn [join] in *. by rewrite IH.
    + rewrite join_cons in * by discriminate. rewrite <- IH. reflexivity.
Qed.

Lemma split_app_sep (sep : ascii) (tok rest : string) :
  split sep tok = [tok] →
  split sep (tok +:+ String sep rest) = tok :: split sep rest.
Proof.
  induction tok as [|c t IH]; intros Hfree.
  - change (EmptyString +:+ String sep rest) with (String sep rest).
    cbn [split]. by rewrite Ascii.eqb_refl.
  - change (String c t +:+ String sep rest)
      with (String c (t +:+ String sep rest)).
    cbn [split] in *. destruct (Ascii.eqb c sep); [discriminate|].
    pose proof (split_nonempty sep t) as Hne.
    destruct (split sep t) as [|tok toks] eqn:Ht; [done|].
    injection Hfree as -> ->. rewrite IH by reflexivity. reflexivity.
Qed.

(** Splitting a joined list of separator-free pieces gives the pieces back. *)
Lemma split_join (sep : ascii) (l : list string) :
  l ≠ [] → Forall (λ tok, split sep tok = [tok]) l →
  split sep (join (String sep EmptyString) l) = l.
Proof.
  intros Hne Hfree. induction Hfree as [|x l Hx Hl IH]; [done|].
  destruct l as [|y l].
  - exact Hx.
  - rewrite join_cons by discriminate.
    change (x +:+ String sep EmptyString +:+ join (String sep EmptyString) (y :: l))
      with (x +:+ String sep (join (String sep EmptyString) (y :: l))).
    rewrite split_app_sep by exact Hx. by rewrite IH.
Qed.

Lemma default_dosage_tokens (x : string) :
  split "+" (default_dosage x) = map (λ _, "1.0") (split "+" x).
Proof.
  unfold default_dosage. apply split_join.
  - pose proof (split_nonempty "+" x). by destruct (split "+" x).
  - induction (split "+" x); constructor; [reflexivity | assumption].
Qed.

(** The positions found by [np.where(np.isin(names, values))]. *)
Lemma elem_of_where_isin_from (k : nat) (names values : list string) (i : nat) :
  i ∈ where_isin_from k names values
  ↔ ∃ j x, i = (k + j)%nat ∧ names !! j = Some x ∧ x ∈ values.
Proof.
  revert k. induction names as [|y names IH]; intros k; cbn [where_isin_from].
  - split; [intros H; inversion H | intros (j & x & _ & H & _); inversion H].
  - assert (Hrest : i ∈ where_isin_from (S k) names values
              ↔ ∃ j x, i = (k + S j)%nat ∧ names !! j = Some x ∧ x ∈ values).
    { rewrite IH. split; intros (j & x & -> & H); exists j, x;
        (split; [lia | exact H]). }
    case_bool_decide as Hy.
    + rewrite elem_of_cons, Hrest. split.
      * intros [->|(j & x & -> & Hj & Hx)].
        -- exists 0%nat, y. split; [lia|]. by split.
        -- exists (S j), x. by split.
      * intros ([|j] & x & -> & Hj & Hx).
        -- left. lia.
        -- right. exists j, x. by split.
    + rewrite Hrest. split.
      * intros (j & x & -> & Hj & Hx). exists (S j), x. by split.
      * intros ([|j] & x & -> & Hj & Hx).
        -- injection Hj as ->. done.
        -- exists j, x. by split.
Qed.

Lemma where_isin_from_sorted (k : nat) (names values : list string) :
  StronglySorted lt (where_isin_from k names values).
Proof.
  revert k. induction names as [|y names IH]; intros k; cbn [where_isin_from].
  - constructor.
  - case_bool_decide; [|apply IH].
    constructor; [apply IH|].
    apply Forall_forall. intros i Hi.
    apply elem_of_where_isin_from in Hi as (j & x & -> & _). lia.
Qed.

Lemma where_isin_from_ext (k : nat) (names values values' : list string) :
  (∀ x, x ∈ values ↔ x ∈ values') →
  where_isin_from k names values = where_isin_from k names values'.
Proof.
  intros Hext. revert k.
  induction names as [|y names IH]; intros k; cbn [where_isin_from];
    [reflexivity|].
  rewrite (bool_decide_ext _ _ (Hext y)), !IH. reflexivity.
Qed.

Lemma where_isin_from_unknown (k : nat) (names values : list string) :
  (∀ x, x ∈ values → x ∉ names) → where_isin_from k names values = [].
Proof.
  intros Hunk. revert k.
  induction names as [|y names IH]; intros k; cbn [where_isin_from];
    [reflexivity|].
  rewrite bool_decide_eq_false_2.
  - apply IH. intros x Hx Hin. apply (Hunk x Hx). by right.
  - intros Hy. apply (Hunk y Hy). by left.
Qed.

Lemma where_isin_from_length (k : nat) (names values : list string) :
  NoDup names → (length (where_isin_from k names values) ≤ length values)%nat.
Proof.
  intros Hnd.
  assert (Hlen : ∀ k, length (where_isin_from k names values)
                      = length (filter (λ x, x ∈ values) names)).
  { clear. induction names as [|y names IH]; intros k; cbn [where_isin_from];
      [reflexivity|].
    case_bool_decide as Hy.
    - rewrite filter_cons_True by exact Hy. cbn [length]. by rewrite IH.
    - rewrite filter_cons_False by exact Hy. apply IH. }
  rewrite Hlen. apply submseteq_length, NoDup_submseteq.
  - by apply NoDup_filter.
  - intros x Hx. by apply list_elem_of_filter in Hx as [Hx _].
Qed.

Lemma pert_row_length (names : list string) (pad m : nat) (c : string) :
  length (pert_row names pad m c)
  = Nat.max m (length (where_isin names (split "+" c))).
Proof. unfold pert_row. rewrite length_app, repeat_length. lia. Qed.

(** Stacking rows. *)
Lemma np_vstack_Ok {A : Type} (rows : list (list A)) (n : nat) :
  rows ≠ [] → Forall (λ r, length r = n) rows → np_vstack rows = Ok rows.
Proof.
  intros Hne Hall. destruct rows as [|row rows]; [done|]. unfold np_vstack.
  apply Forall_cons in Hall as [Hrow Hall].
  rewrite (proj2 (forallb_forall _ _)); [reflexivity|].
  intros r Hr. apply Nat.eqb_eq. rewrite Hrow.
  rewrite Forall_forall in Hall. apply Hall. by apply list_elem_of_In.
Qed.

Lemma np_vstack_ragged {A : Type} (rows : list (list A)) (r1 r2 : list A) :
  r1 ∈ rows → r2 ∈ rows → length r1 ≠ length r2 →
  np_vstack rows
  = Raise (ValueError "all the input array dimensions except for the concatenation axis must match exactly").
Proof.
  intros H1 H2 Hlen. destruct rows as [|row rows]; [inversion H1|].
  unfold np_vstack.
  destruct (forallb (λ r, (length r =? length row)%nat) rows) eqn:E;
    [|reflexivity].
  exfalso. rewrite forallb_forall in E.
  assert (Hall : ∀ r, r ∈ row :: rows → length r = length row).
  { intros r Hr. apply elem_of_cons in Hr as [->|Hr]; [reflexivity|].
    apply Nat.eqb_eq, E. by apply list_elem_of_In. }
  rewrite (Hall r1 H1), (Hall r2 H2) in Hlen. done.
Qed.

(** A dictionary filled by a loop over keys and then read at the same keys. *)
Lemma fold_insert_lookup {V : Type} (f : string → V) (l : list string)
    (m0 : gmap string V) (k : string) :
  k ∈ l → fold_left (λ m c, <[c := f c]> m) l m0 !! k = Some (f k).
Proof.
  revert m0.
  assert (Hkeep : ∀ (l : list string) (m0 : gmap string V),
            m0 !! k = Some (f k) →
            fold_left (λ m c, <[c := f c]> m) l m0 !! k = Some (f k)).
  { clear. induction l as [|c l IH]; intros m0 Hm0; [exact Hm0|].
    cbn [fold_left]. apply IH. destruct (decide (c = k)) as [->|Hne].
    - apply lookup_insert_eq.
    - by rewrite lookup_insert_ne. }
  induction l as [|c l IH]; intros m0 Hk; [inversion Hk|].
  cbn [fold_left]. destruct (decide (c = k)) as [->|Hne].
  - apply Hkeep, lookup_insert_eq.
  - apply IH. apply elem_of_cons in Hk as [->|Hk]; [done | exact Hk].
Qed.

Lemma mapM_getitem_map {V : Type} (f : string → V) (d : gmap string V)
    (l : list string) :
  (∀ x, x ∈ l → d !! x = Some (f x)) →
  mapM (λ x, getitem d x) l = Ok (map f l).
Proof.
  induction l as [|x l IH]; intros Hall; [reflexivity|].
  cbn [mapM map]. rewrite (proj2 (getitem_Ok _ _ _) (Hall x ltac:(by left))).
  cbn [mbind result_bind]. rewrite IH by (intros y Hy; apply Hall; by right).
  reflexivity.
Qed.

Lemma mapM_ext_elem {A B : Type} (f g : A → result B) (l : list A) :
  (∀ x, x ∈ l → f x = g x) → mapM f l = mapM g l.
Proof.
  induction l as [|x l IH]; intros Hall; [reflexivity|].
  cbn [mapM]. rewrite (Hall x) by (by left).
  rewrite IH by (intros y Hy; apply Hall; by right). reflexivity.
Qed.

Lemma foldM_memo_Ok {V : Type} (f : string → result V) (l : list string)
    (m0 d : gmap string V) :
  foldM (λ (d : gmap string V) k, row ← f k; Ok (<[k := row]> d)) m0 l = Ok d →
  (∀ k, k ∈ l → ∃ row, f k = Ok row ∧ d !! k = Some row)
  ∧ (∀ k row, f k = Ok row → m0 !! k = Some row → d !! k = Some row).
Proof.
  revert m0. induction l as [|c l IH]; intros m0 Hrun.
  - injection Hrun as <-. split; [intros k Hk; inversion Hk | auto].
  - cbn [foldM] in Hrun. apply bind_Ok_inv in Hrun as (m1 & Hstep & Hrun).
    apply bind_Ok_inv in Hstep as (row & Hrow & Hstep). injection Hstep as <-.
    destruct (IH _ Hrun) as [Hin Hkeep]. split.
    + intros k Hk. apply elem_of_cons in Hk as [->|Hk]; [|by apply Hin].
      exists row. split; [exact Hrow|].
      apply Hkeep; [exact Hrow | apply lookup_insert_eq].
    + intros k row' Hk Hm0. apply Hkeep; [exact Hk|].
      destruct (decide (c = k)) as [->|Hne].
      * rewrite lookup_insert_eq. congruence.
      * by rewrite lookup_insert_ne.
Qed.

Lemma foldM_memo_Raise {V : Type} (f : string → result V) (l : list string)
    (m0 : gmap string V) (e : exn) :
  foldM (λ (d : gmap string V) k, row ← f k; Ok (<[k := row]> d)) m0 l
  = Raise e →
  mapM f l = Raise e.
Proof.
  revert m0. induction l as [|c l IH]; intros m0 Hrun; [discriminate|].
  cbn [foldM mapM] in *. destruct (f c) as [row|e']; cbn [mbind result_bind] in *.
  - rewrite (IH _ Hrun). reflexivity.
  - by injection Hrun as ->.
Qed.

End SetupArrays.

Section SetupProperties.

Import CPA.

(** The dictionary [pert_map] is only a memo: the stored array has, for
    every cell, the row of the cell's own condition. *)
Lemma data_perts_rows (cls_pert_encoder : option ordered_dict)
    (registry_padding_idx : nat) (perturbations : list string)
    (control_group : string) (max_comb_len : nat) :
  data_perts cls_pert_encoder registry_padding_idx perturbations control_group
    max_comb_len
  = np_vstack
      (map (pert_row
              (perts_names_unique
                 (build_pert_encoder cls_pert_encoder registry_padding_idx
                    perturbations control_group))
              (PADDING_IDX
                 (build_pert_encoder cls_pert_encoder registry_padding_idx
                    perturbations control_group))
              max_comb_len)
         perturbations).
Proof.
  unfold data_perts. cbn zeta. unfold pert_map.
  set (v := build_pert_encoder _ _ _ _).
  rewrite (mapM_getitem_map
             (pert_row (perts_names_unique v) (PADDING_IDX v) max_comb_len)).
  - reflexivity.
  - intros x Hx.
    by apply (fold_insert_lookup
                (pert_row (perts_names_unique v) (PADDING_IDX v) max_comb_len)).
Qed.

(** X13: the array of perturbation indices. When there is at least one
    cell, the vocabulary has no repeated name and no condition combines
    more than [max_comb_len] perturbations, [data_perts] has one row per
    cell, every row has [max_comb_len] entries, and every entry is a
    position of the vocabulary or the padding index. *)
Theorem data_perts_shape (cls_pert_encoder : option ordered_dict)
    (registry_padding_idx : nat) (perturbations : list string)
    (control_group : string) (max_comb_len : nat) :
  let v := build_pert_encoder cls_pert_encoder registry_padding_idx
             perturbations control_group in
  perturbations ≠ [] →
  NoDup (perts_names_unique v) →
  (∀ c, c ∈ perturbations → (length (split "+" c) ≤ max_comb_len)%nat) →
  ∃ rows,
    data_perts cls_pert_encoder registry_padding_idx perturbations
      control_group max_comb_len = Ok rows
    ∧ length rows = length perturbations
    ∧ Forall (λ row, length row = max_comb_len) rows
    ∧ Forall (Forall (λ i, (i < length (perts_names_unique v))%nat
                           ∨ i = PADDING_IDX v)) rows.
Proof.
  intros v Hne Hnd Hlen. rewrite data_perts_rows. fold v.
  set (rows := map (pert_row (perts_names_unique v) (PADDING_IDX v)
                      max_comb_len) perturbations).
  assert (Hrows : Forall (λ row, length row = max_comb_len) rows).
  { apply Forall_forall. intros row Hrow.
    apply list_elem_of_fmap in Hrow as (c & -> & Hc).
    rewrite pert_row_length.
    pose proof (where_isin_from_length 0 (perts_names_unique v)
                  (split "+" c) Hnd) as Hle.
    specialize (Hlen c Hc). unfold where_isin. lia. }
  exists rows. split; [|split; [|split]].
  - apply (np_vstack_Ok rows max_comb_len); [|exact Hrows].
    unfold rows. by destruct perturbations.
  - unfold rows. apply length_map.
  - exact Hrows.
  - apply Forall_forall. intros row Hrow.
    apply list_elem_of_fmap in Hrow as (c & -> & Hc).
    unfold pert_row. apply Forall_app. split.
    + apply Forall_forall. intros i Hi.
      apply elem_of_where_isin_from in Hi as (j & x & -> & Hj & _).
      left. apply lookup_lt_Some in Hj. lia.
    + apply Forall_forall. intros i Hi.
      apply list_elem_of_In, repeat_spec in Hi. by right.
Qed.

(** X14: rows of different lengths. When one condition names more
    vocabulary entries than [max_comb_len] and another condition names
    fewer than that one, the rows differ in length and [np.vstack]
    rejects them with [ValueError]. *)
Theorem data_perts_ragged (cls_pert_encoder : option ordered_dict)
    (registry_padding_idx : nat) (perturbations : list string)
    (control_group : string) (max_comb_len : nat) (c1 c2 : string) :
  let v := build_pert_encoder cls_pert_encoder registry_padding_idx
             perturbations control_group in
  c1 ∈ perturbations → c2 ∈ perturbations →
  (max_comb_len
   < length (where_isin (perts_names_unique v) (split "+" c1)))%nat →
  (length (where_isin (perts_names_unique v) (split "+" c2))
   < length (where_isin (perts_names_unique v) (split "+" c1)))%nat →
  data_perts cls_pert_encoder registry_padding_idx perturbations control_group
    max_comb_len
  = Raise (ValueError "all the input array dimensions except for the concatenation axis must match exactly").
Proof.
  intros v H1 H2 Hlong Hshort. rewrite data_perts_rows. fold v.
  apply (np_vstack_ragged _
           (pert_row (perts_names_unique v) (PADDING_IDX v) max_comb_len c1)
           (pert_row (perts_names_unique v) (PADDING_IDX v) max_comb_len c2)).
  - by apply list_elem_of_fmap_2.
  - by apply list_elem_of_fmap_2.
  - rewrite !pert_row_length. lia.
Qed.

(** X15: with a vocabulary already fixed on the class, perturbation names
    the vocabulary does not know raise nothing: a cell whose condition has
    only unknown names gets a row of padding. *)
Theorem data_perts_unknown_is_padding (keys : list string)
    (pert_encoder : gmap string nat) (registry_padding_idx : nat)
    (perturbations : list string) (control_group : string)
    (max_comb_len : nat) :
  perturbations ≠ [] →
  (∀ c tok, c ∈ perturbations → tok ∈ split "+" c → tok ∉ keys) →
  data_perts (Some (keys, pert_encoder)) registry_padding_idx perturbations
    control_group max_comb_len
  = Ok (map (λ _, repeat registry_padding_idx max_comb_len) perturbations).
Proof.
  intros Hne Hunk. rewrite data_perts_rows.
  cbn [build_pert_encoder perts_names_unique PADDING_IDX].
  assert (Hrows : map (pert_row keys registry_padding_idx max_comb_len)
                    perturbations
                  = map (λ _, repeat registry_padding_idx max_comb_len)
                      perturbations).
  { apply map_ext_in. intros c Hc. apply list_elem_of_In in Hc.
    unfold pert_row, where_isin.
    rewrite where_isin_from_unknown by (intros tok; apply (Hunk c tok Hc)).
    cbn [length app]. by rewrite Nat.sub_0_r. }
  rewrite Hrows. apply (np_vstack_Ok _ max_comb_len).
  - by destruct perturbations.
  - apply Forall_forall. intros row Hrow.
    apply list_elem_of_fmap in Hrow as (c & -> & _). apply repeat_length.
Qed.

(** X16: the row of a condition depends on the set of its names only:
    the indices come in vocabulary order, whatever the order in which the
    condition lists its perturbations and however often it repeats one. *)
Theorem pert_row_order_insensitive (perts_names_unique : list string)
    (PADDING_IDX max_comb_len : nat) (c1 c2 : string) :
  (∀ tok, tok ∈ split "+" c1 ↔ tok ∈ split "+" c2) →
  pert_row perts_names_unique PADDING_IDX max_comb_len c1
  = pert_row perts_names_unique PADDING_IDX max_comb_len c2.
Proof.
  intros Hext. unfold pert_row, where_isin.
  by rewrite (where_isin_from_ext 0 perts_names_unique _ _ Hext).
Qed.

Lemma fresh_names (perturbations : list string) (control_group : string)
    (registry_padding_idx : nat) :
  "<PAD>" ≠ control_group →
  (∀ d, d ∈ perturbations → "<PAD>" ∉ split "+" d) →
  let v := build_pert_encoder None registry_padding_idx perturbations
             control_group in
  NoDup (perts_names_unique v)
  ∧ perts_names_unique v !! 0%nat = Some "<PAD>"
  ∧ (∀ d tok, d ∈ perturbations → tok ∈ split "+" d →
              tok ∈ perts_names_unique v).
Proof.
  intros Hpad Hdata v.
  set (rest := sorted (elements (collect_names perturbations control_group))).
  assert (Hrest : ∀ x, x ∈ rest
            ↔ x ≠ control_group ∧ ∃ d, d ∈ perturbations ∧ x ∈ split "+" d).
  { intros x. unfold rest, sorted.
    rewrite merge_sort_Permutation, elem_of_elements.
    apply elem_of_collect_names. }
  split; [|split; [reflexivity|]].
  - change (NoDup ("<PAD>" :: control_group :: rest)).
    apply NoDup_cons. split.
    + apply not_elem_of_cons. split; [exact Hpad|].
      intros Hin. apply Hrest in Hin as (_ & d & Hd & Hin).
      by apply (Hdata d Hd).
    + apply NoDup_cons. split.
      * intros Hin. by apply Hrest in Hin as [Hc _].
      * unfold rest, sorted. rewrite merge_sort_Permutation.
        apply NoDup_elements.
  - intros d tok Hd Htok.
    change (tok ∈ "<PAD>" :: control_group :: rest).
    destruct (decide (tok = control_group)) as [->|Hne].
    + right. by left.
    + right. right. apply Hrest. split; [exact Hne|]. by exists d.
Qed.

(** X17: in a fresh vocabulary where "<PAD>" is reserved, the row of a
    condition of the data begins with the vocabulary indices of the
    condition's names, in increasing order and each once, and continues
    with padding; every name of the condition has an index, and the
    padding index 0 is not among the indices of the names. *)
Theorem fresh_pert_row_indices (perturbations : list string)
    (control_group : string) (registry_padding_idx max_comb_len : nat)
    (c : string) :
  "<PAD>" ≠ control_group →
  (∀ d, d ∈ perturbations → "<PAD>" ∉ split "+" d) →
  c ∈ perturbations →
  let v := build_pert_encoder None registry_padding_idx perturbations
             control_group in
  ∃ idxs,
    pert_row (perts_names_unique v) (PADDING_IDX v) max_comb_len c
    = (idxs ++ repeat 0%nat (max_comb_len - length idxs))%list
    ∧ StronglySorted lt idxs
    ∧ (∀ i, i ∈ idxs
            ↔ ∃ tok, tok ∈ split "+" c ∧ pert_encoder v !! tok = Some i)
    ∧ (∀ tok, tok ∈ split "+" c → is_Some (pert_encoder v !! tok))
    ∧ 0%nat ∉ idxs.
Proof.
  intros Hpad Hdata Hc v.
  destruct (fresh_names perturbations control_group registry_padding_idx
              Hpad Hdata) as (Hnd & Hzero & Hall).
  fold v in Hnd, Hzero, Hall.
  assert (Henc : ∀ name i, pert_encoder v !! name = Some i
                 ↔ perts_names_unique v !! i = Some name).
  { intros name i. by apply enumerate_dict_spec. }
  assert (Hidx : ∀ i, i ∈ where_isin (perts_names_unique v) (split "+" c)
            ↔ ∃ tok, tok ∈ split "+" c ∧ pert_encoder v !! tok = Some i).
  { intros i. unfold where_isin. rewrite elem_of_where_isin_from. split.
    - intros (j & x & -> & Hj & Hx). exists x. split; [exact Hx|].
      by apply Henc.
    - intros (tok & Htok & Hi). exists i, tok. split; [reflexivity|].
      split; [by apply Henc | exact Htok]. }
  exists (where_isin (perts_names_unique v) (split "+" c)).
  split; [reflexivity|]. split; [apply where_isin_from_sorted|].
  split; [exact Hidx|]. split.
  - intros tok Htok.
    destruct (proj1 (list_elem_of_lookup _ _) (Hall c tok Hc Htok)) as [i Hi].
    exists i. by apply Henc.
  - intros H0. apply Hidx in H0 as (tok & Htok & Hi).
    apply Henc in Hi. rewrite Hzero in Hi. injection Hi as <-.
    by apply (Hdata c Hc).
Qed.

(** The dictionary [dose_map] is a memo as well. *)
Lemma data_perts_dosages_rows (float : string → result R)
    (perturbations : list string) (obs_dosages : option (list string))
    (max_comb_len : nat) :
  data_perts_dosages float perturbations obs_dosages max_comb_len
  = mapM (dose_row float max_comb_len) (dosages_of perturbations obs_dosages)
    ≫= np_vstack.
Proof.
  unfold data_perts_dosages. cbn zeta.
  set (dosages := dosages_of perturbations obs_dosages).
  destruct (foldM _ ∅ dosages) as [dose_map|e] eqn:Hloop.
  - cbn [mbind result_bind].
    destruct (foldM_memo_Ok (dose_row float max_comb_len) _ _ _ Hloop)
      as [Hin _].
    rewrite (mapM_ext_elem (λ x, getitem dose_map x)
               (dose_row float max_comb_len)); [reflexivity|].
    intros x Hx. destruct (Hin x Hx) as (row & -> & Hrow).
    by apply getitem_Ok.
  - cbn [mbind result_bind].
    by rewrite (foldM_memo_Raise (dose_row float max_comb_len) _ _ _ Hloop).
Qed.

Lemma dose_row_parsed (float : string → result R) (g : string → R)
    (max_comb_len : nat) (s : string) :
  (∀ tok, tok ∈ split "+" s → float tok = Ok (g tok)) →
  dose_row float max_comb_len s
  = Ok (map g (split "+" s)
        ++ repeat 0%R (max_comb_len - length (split "+" s)))%list.
Proof.
  intros Hall. unfold dose_row.
  assert (Hparse : mapM float (split "+" s) = Ok (map g (split "+" s))).
  { induction (split "+" s) as [|tok toks IH]; [reflexivity|].
    cbn [mapM map]. rewrite (Hall tok) by (by left).
    cbn [mbind result_bind]. rewrite IH by (intros y Hy; apply Hall; by right).
    reflexivity. }
  rewrite Hparse. cbn [mbind result_bind]. by rewrite length_map.
Qed.

(** X18: the array of dosages from a dosage column. When every piece of
    every dosage string is a number, the array has, for every cell, the
    numbers of the cell's dosage string in their order, followed by zeros
    up to [max_comb_len]. *)
Theorem data_perts_dosages_parsed (float : string → result R)
    (g : string → R) (perturbations dosages : list string)
    (max_comb_len : nat) :
  (∀ s tok, s ∈ dosages → tok ∈ split "+" s → float tok = Ok (g tok)) →
  data_perts_dosages float perturbations (Some dosages) max_comb_len
  = np_vstack
      (map (λ s, map g (split "+" s)
                 ++ repeat 0%R (max_comb_len - length (split "+" s)))%list
         dosages).
Proof.
  intros Hall. rewrite data_perts_dosages_rows. cbn [dosages_of].
  assert (Hrows : mapM (dose_row float max_comb_len) dosages
            = Ok (map (λ s, map g (split "+" s)
                            ++ repeat 0%R (max_comb_len - length (split "+" s)))%list
                    dosages)).
  { induction dosages as [|s l IH]; [reflexivity|].
    cbn [mapM map].
    rewrite (dose_row_parsed float g) by (intros tok; apply Hall; by left).
    cbn [mbind result_bind].
    rewrite IH by (intros s' tok Hs'; apply Hall; by right). reflexivity. }
  rewrite Hrows. reflexivity.
Qed.

(** X19: the array of dosages without a dosage column. Every cell gets
    the dosage 1 for each name of its condition, followed by zeros up to
    [max_comb_len]. *)
Theorem data_perts_dosages_default (float : string → result R)
    (perturbations : list string) (max_comb_len : nat) :
  float "1.0" = Ok 1%R →
  data_perts_dosages float perturbations None max_comb_len
  = np_vstack
      (map (λ x, repeat 1%R (length (split "+" x))
                 ++ repeat 0%R (max_comb_len - length (split "+" x)))%list
         perturbations).
Proof.
  intros Hone. rewrite data_perts_dosages_rows. cbn [dosages_of].
  assert (Hrows : mapM (dose_row float max_comb_len)
                    (map default_dosage perturbations)
            = Ok (map (λ x, repeat 1%R (length (split "+" x))
                            ++ repeat 0%R (max_comb_len - length (split "+" x)))%list
                    perturbations)).
  { induction perturbations as [|x l IH]; [reflexivity|].
    cbn [mapM map].
    rewrite (dose_row_parsed float (λ _, 1%R)).
    - cbn [mbind result_bind]. rewrite IH. cbn [mbind result_bind mret].
      rewrite default_dosage_tokens, !length_map.
      do 3 f_equal. clear. induction (split "+" x) as [|t ts IHt];
        [reflexivity|]. cbn [map length repeat]. by rewrite IHt.
    - intros tok Htok. rewrite default_dosage_tokens in Htok.
      apply list_elem_of_fmap in Htok as (? & -> & _). exact Hone. }
  rewrite Hrows. reflexivity.
Qed.

(** X20: a dosage string with a piece that is not a number makes the
    construction of the dosage array fail. *)
Theorem data_perts_dosages_not_a_number (float : string → result R)
    (perturbations : list string) (obs_dosages : option (list string))
    (max_comb_len : nat) (s tok : string) (e : exn) :
  s ∈ dosages_of perturbations obs_dosages →
  tok ∈ split "+" s →
  float tok = Raise e →
  ∃ e', data_perts_dosages float perturbations obs_dosages max_comb_len
        = Raise e'.
Proof.
  intros Hs Htok Hbad. rewrite data_perts_dosages_rows.
  destruct (mapM (dose_row float max_comb_len)
              (dosages_of perturbations obs_dosages)) as [rows|e'] eqn:Hrows.
  - exfalso. apply mapM_Ok_Forall2 in Hrows.
    apply list_elem_of_lookup in Hs as [i Hi].
    destruct (Forall2_lookup_l _ _ _ _ _ Hrows Hi) as (row & _ & Hrow).
    unfold dose_row in Hrow.
    apply bind_Ok_inv in Hrow as (dosages_list & Hparse & _).
    apply mapM_Ok_Forall2 in Hparse.
    apply list_elem_of_lookup in Htok as [j Hj].
    destruct (Forall2_lookup_l _ _ _ _ _ Hparse Hj) as (x & _ & Hx).
    congruence.
  - exists e'. reflexivity.
Qed.

End SetupProperties.

Lemma data_perts_shape_witness :
  ∃ rows,
    CPA.data_perts None 7 ["drugB+drugA"; "ctrl"; "drugA"] "ctrl" 2 = Ok rows
    ∧ length rows = 3%nat
    ∧ Forall (λ row, length row = 2%nat) rows
    ∧ Forall
        (Forall
           (λ i, (i < length
                        (CPA.perts_names_unique
                           (CPA.build_pert_encoder None 7
                              ["drugB+drugA"; "ctrl"; "drugA"] "ctrl")))%nat
                 ∨ i = CPA.PADDING_IDX
                         (CPA.build_pert_encoder None 7
                            ["drugB+drugA"; "ctrl"; "drugA"] "ctrl")))
        rows.
Proof.
  apply (data_perts_shape None 7 ["drugB+drugA"; "ctrl"; "drugA"] "ctrl" 2).
  - discriminate.
  - apply (bool_decide_unpack _). vm_compute. exact I.
  - intros c Hc.
    assert (HF : Forall (λ c, (length (CPA.split "+" c) ≤ 2)%nat)
                   ["drugB+drugA"; "ctrl"; "drugA"])
      by (apply (bool_decide_unpack _); vm_compute; exact I).
    rewrite Forall_forall in HF. exact (HF c Hc).
Defined.

Lemma data_perts_ragged_witness :
  CPA.data_perts None 7 ["A+B+C"; "A"] "ctrl" 2
  = Raise (ValueError "all the input array dimensions except for the concatenation axis must match exactly").
Proof.
  apply (data_perts_ragged None 7 ["A+B+C"; "A"] "ctrl" 2 "A+B+C" "A").
  - by left.
  - right. by left.
  - vm_compute. lia.
  - vm_compute. lia.
Defined.

Lemma data_perts_unknown_is_padding_witness :
  CPA.data_perts
    (Some (["<PAD>"; "ctrl"; "drugA"],
           CPA.enumerate_dict ["<PAD>"; "ctrl"; "drugA"]))
    0 ["drugZ"; "drugY+drugZ"] "ctrl" 2
  = Ok [[0; 0]; [0; 0]]%nat.
Proof.
  apply (data_perts_unknown_is_padding ["<PAD>"; "ctrl"; "drugA"]
           (CPA.enumerate_dict ["<PAD>"; "ctrl"; "drugA"]) 0
           ["drugZ"; "drugY+drugZ"] "ctrl" 2).
  - discriminate.
  - intros c tok Hc Htok.
    assert (HF : Forall (λ c, Forall (λ tok, tok ∉ ["<PAD>"; "ctrl"; "drugA"])
                                (CPA.split "+" c))
                   ["drugZ"; "drugY+drugZ"])
      by (apply (bool_decide_unpack _); vm_compute; exact I).
    rewrite Forall_forall in HF. specialize (HF c Hc).
    rewrite Forall_forall in HF. exact (HF tok Htok).
Defined.

Lemma pert_row_order_insensitive_witness :
  CPA.pert_row ["<PAD>"; "ctrl"; "A"; "B"] 0 2 "A+B"
  = CPA.pert_row ["<PAD>"; "ctrl"; "A"; "B"] 0 2 "B+A".
Proof.
  apply (pert_row_order_insensitive ["<PAD>"; "ctrl"; "A"; "B"] 0 2 "A+B" "B+A").
  intros tok. change (tok ∈ ["A"; "B"] ↔ tok ∈ ["B"; "A"]).
  rewrite !elem_of_cons. tauto.
Defined.

Lemma fresh_pert_row_indices_witness :
  let v := CPA.build_pert_encoder None 7 ["drugB+drugA"; "ctrl"; "drugA"]
             "ctrl" in
  ∃ idxs,
    CPA.pert_row (CPA.perts_names_unique v) (CPA.PADDING_IDX v) 3 "drugB+drugA"
    = (idxs ++ repeat 0%nat (3 - length idxs))%list
    ∧ StronglySorted lt idxs
    ∧ (∀ i, i ∈ idxs
            ↔ ∃ tok, tok ∈ CPA.split "+" "drugB+drugA"
                     ∧ CPA.pert_encoder v !! tok = Some i)
    ∧ (∀ tok, tok ∈ CPA.split "+" "drugB+drugA" →
              is_Some (CPA.pert_encoder v !! tok))
    ∧ 0%nat ∉ idxs.
Proof.
  apply (fresh_pert_row_indices ["drugB+drugA"; "ctrl"; "drugA"] "ctrl" 7 3
           "drugB+drugA").
  - discriminate.
  - intros d Hd.
    assert (HF : Forall (λ d, "<PAD>" ∉ CPA.split "+" d)
                   ["drugB+drugA"; "ctrl"; "drugA"])
      by (apply (bool_decide_unpack _); vm_compute; exact I).
    rewrite Forall_forall in HF. exact (HF d Hd).
  - by left.
Defined.

Lemma data_perts_dosages_parsed_witness :
  CPA.data_perts_dosages Examples.float3 ["A+B"; "B"] (Some ["0.5+2.0"; "2.0"]) 2
  = CPA.np_vstack
      (map (λ s, map Examples.value3 (CPA.split "+" s)
                 ++ repeat 0%R (2 - length (CPA.split "+" s)))%list
         ["0.5+2.0"; "2.0"]).
Proof.
  apply (data_perts_dosages_parsed Examples.float3 Examples.value3 ["A+B"; "B"]
           ["0.5+2.0"; "2.0"] 2).
  intros s tok Hs Htok.
  repeat (apply elem_of_cons in Hs as [->|Hs]); [| |inversion Hs].
  - change (tok ∈ ["0.5"; "2.0"]) in Htok.
    repeat (apply elem_of_cons in Htok as [->|Htok]);
      [reflexivity | reflexivity | inversion Htok].
  - change (tok ∈ ["2.0"]) in Htok.
    repeat (apply elem_of_cons in Htok as [->|Htok]);
      [reflexivity | inversion Htok].
Defined.

Lemma data_perts_dosages_default_witness :
  CPA.data_perts_dosages Examples.float3 ["A+B"; "ctrl"] None 2
  = CPA.np_vstack
      (map (λ x, repeat 1%R (length (CPA.split "+" x))
                 ++ repeat 0%R (2 - length (CPA.split "+" x)))%list
         ["A+B"; "ctrl"]).
Proof.
  apply (data_perts_dosages_default Examples.float3 ["A+B"; "ctrl"] 2).
  reflexivity.
Defined.

Lemma data_perts_dosages_not_a_number_witness :
  ∃ e', CPA.data_perts_dosages Examples.float3 ["A+B"] (Some ["1.0+high"]) 2
        = Raise e'.
Proof.
  apply (data_perts_dosages_not_a_number Examples.float3 ["A+B"]
           (Some ["1.0+high"]) 2 "1.0+high" "high"
           (ValueError "could not convert string to float")).
  - by left.
  - right. by left.
  - reflexivity.
Defined.

(** ** [CPA.__init__]: the construction of the module *)

(** X21: the call of [CPAModule] in [CPA.__init__] can never bind its
    arguments: it passes the keyword [n_perts], and [CPAModule.__init__]
    has no parameter of that name (the parameter is [n_drugs]), so the call
    raises [TypeError] whatever the data and the hyper-parameters are. *)
Theorem module_call_TypeError {V : Type} (n_vars n_perts covars_encoder : V)
    (hyper_params : list (string * V)) :
  CPA.module_call n_vars n_perts covars_encoder hyper_params = Raise TypeError.
Proof.
  unfold CPA.module_call, bind_keywords.
  destruct (existsb _ hyper_params); [reflexivity|].
  cbn [app forallb fst].
  assert (Hperts : "n_perts"
            ∉ (CPA.CPAModule_required ++ CPA.CPAModule_optional)%list)
    by (apply (bool_decide_unpack _); vm_compute; exact I).
  rewrite (bool_decide_eq_false_2 _ Hperts).
  cbn [andb]. by rewrite andb_false_r.
Qed.

(** ** [setup_anndata]: the gene masks *)

Section DegMaskRows.

Import CPA.

Lemma deg_tables_first (var_names : list string)
    (uns_deg : gmap string (list string)) (n_deg_r2 : nat)
    (conds : list string) :
  (deg_tables var_names uns_deg n_deg_r2 conds).1
  = fold_left
      (λ (m : gmap string (list Z)) c,
         <[c := match uns_deg !! c with
                | Some degs => isin var_names degs
                | None => repeat 1%Z (length var_names)
                end]> m)
      conds ∅.
Proof.
  unfold deg_tables.
  generalize (∅ : gmap string (list Z)) at 1 3.
  generalize (∅ : gmap string (list Z)).
  induction conds as [|c conds IH]; intros m2 m1; [reflexivity|].
  cbn [fold_left]. destruct (uns_deg !! c); apply IH.
Qed.

(** X22: the stored gene masks. Without cells [np.vstack] raises
    [ValueError]; otherwise both "deg_mask" and "deg_mask_r2" hold, for
    every cell, the indicator of the genes listed for the cell's category
    over all of the listed genes, or a row of ones when nothing is listed
    for the category. The number [n_deg_r2] has no effect on the result. *)
Theorem setup_deg_masks_rows (var_names : list string)
    (uns_deg : gmap string (list string)) (kw_n_deg_r2 : option nat)
    (obs_cat : list string) (obsm : gmap string (list (list Z))) :
  setup_deg_masks var_names uns_deg kw_n_deg_r2 obs_cat obsm
  = match obs_cat with
    | [] => Raise (ValueError "need at least one array to concatenate")
    | _ =>
        let mask :=
          map (λ x, match uns_deg !! x with
                    | Some degs => isin var_names degs
                    | None => repeat 1%Z (length var_names)
                    end) obs_cat in
        Ok (<["deg_mask_r2" := mask]> (<["deg_mask" := mask]> obsm))
    end.
Proof.
  unfold setup_deg_masks. cbn zeta.
  pose proof (deg_tables_first var_names uns_deg (default 10%nat kw_n_deg_r2)
                (np_unique obs_cat)) as Hfirst.
  destruct (deg_tables var_names uns_deg (default 10%nat kw_n_deg_r2)
              (np_unique obs_cat)) as [cov_cond_map cov_cond_map_r2].
  cbn [fst] in Hfirst.
  set (row := λ x : string,
         match uns_deg !! x with
         | Some degs => isin var_names degs
         | None => repeat 1%Z (length var_names)
         end) in *.
  rewrite (mapM_getitem_map row).
  - destruct obs_cat; reflexivity.
  - intros x Hx. rewrite Hfirst.
    apply (fold_insert_lookup row). by apply elem_of_np_unique.
Qed.

End DegMaskRows.

(** ** [disentanglement]: the labels it reads *)

Section DisentanglementLabels.

Import CPAModule.
Context {Distribution : Type}.
Variable StandardScaler_fit_transform : list (list R) → list (list R).
Variable cross_val_score : list (list R) → array → nat → result (list R).
Implicit Types self : t (Distribution := Distribution).

Lemma sk_bind_Ok_inv {A B : Type} (m : sk A) (f : A → sk B)
    (log : list cv_call) (r : B * list cv_call) :
  (m ≫= f) log = Ok r → ∃ a log', m log = Ok (a, log') ∧ f a log' = Ok r.
Proof.
  unfold mbind, sk_bind. destruct (m log) as [[a log']|e]; [eauto|discriminate].
Qed.

Lemma sk_bind_ext {A B : Type} (m m' : sk A) (f f' : A → sk B)
    (log : list cv_call) :
  m log = m' log → (∀ a lg, f a lg = f' a lg) →
  (m ≫= f) log = (m' ≫= f') log.
Proof.
  intros Hm Hf. unfold mbind, sk_bind. rewrite Hm.
  destruct (m' log) as [[a lg]|e]; [apply Hf | reflexivity].
Qed.

Lemma lift_Ok_inv {A : Type} (r : result A) (log log' : list cv_call) (a : A) :
  lift r log = Ok (a, log') → r = Ok a ∧ log' = log.
Proof. unfold lift. destruct r; [|discriminate]. by intros [= -> ->]. Qed.

Lemma foldM_sk_Ok_elem {A B : Type} (step : B → A → sk B) (l : list A)
    (acc : B) (log : list cv_call) (r : B * list cv_call) (x : A) :
  foldM step acc l log = Ok r → x ∈ l → ∃ a lg r', step a x lg = Ok r'.
Proof.
  revert acc log. induction l as [|y l IH]; intros acc log Hrun Hx;
    [inversion Hx|].
  cbn [foldM] in Hrun. apply sk_bind_Ok_inv in Hrun as (a & lg & Hstep & Hrun).
  apply elem_of_cons in Hx as [->|Hx]; [eauto | by eapply IH].
Qed.

Lemma foldM_sk_ext {A B : Type} (step step' : B → A → sk B) (l : list A)
    (acc : B) (log : list cv_call) :
  (∀ a x lg, x ∈ l → step a x lg = step' a x lg) →
  foldM step acc l log = foldM step' acc l log.
Proof.
  revert acc log. induction l as [|y l IH]; intros acc log Hext;
    [reflexivity|].
  cbn [foldM]. apply sk_bind_ext; [apply Hext; by left|].
  intros a lg. apply IH. intros a' x lg' Hx. apply Hext. by right.
Qed.

Lemma foldM_sk_skip {A B : Type} (step : B → A → sk B) (l : list A)
    (acc : B) (log : list cv_call) :
  (∀ a x lg, x ∈ l → step a x lg = Ok (a, lg)) →
  foldM step acc l log = Ok (acc, log).
Proof.
  revert acc log. induction l as [|y l IH]; intros acc log Hskip;
    [reflexivity|].
  cbn [foldM]. unfold mbind at 1, sk_bind. rewrite Hskip by (by left).
  apply IH. intros a x lg Hx. apply Hskip. by right.
Qed.

(** X23: when [disentanglement] returns, the batch held a tensor for the
    perturbation and for every covariate of more than one category; the
    covariates of a single category are not read: a batch that agrees on
    the perturbation and on the covariates of more than one category
    gives the same result. *)
Theorem disentanglement_reads_scored_labels self
    (tensors : gmap string tensor) (io : inference_outputs)
    (log : list cv_call) (r : (R * R) * list cv_call) :
  disentanglement StandardScaler_fit_transform cross_val_score self tensors io
    log = Ok r →
  is_Some (tensors !! "drug_name")
  ∧ (∀ kv, kv ∈ covars_encoder self → (1 < length kv.2)%nat →
           is_Some (tensors !! kv.1))
  ∧ ∀ tensors' : gmap string tensor,
      tensors' !! "drug_name" = tensors !! "drug_name" →
      (∀ kv, kv ∈ covars_encoder self → (1 < length kv.2)%nat →
             tensors' !! kv.1 = tensors !! kv.1) →
      disentanglement StandardScaler_fit_transform cross_val_score self
        tensors' io log = Ok r.
Proof.
  intros Hrun. split; [|split].
  - unfold disentanglement in Hrun.
    apply sk_bind_Ok_inv in Hrun as (dn & log1 & Hdn & _).
    apply lift_Ok_inv in Hdn as [Hdn _]. apply getitem_Ok in Hdn. eauto.
  - unfold disentanglement in Hrun.
    apply sk_bind_Ok_inv in Hrun as (dn & log1 & _ & Hrun).
    apply sk_bind_Ok_inv in Hrun as (s0 & log2 & _ & Hrun).
    apply sk_bind_Ok_inv in Hrun as (s1 & log3 & Hloop & _).
    intros kv Hkv Hscored.
    destruct (foldM_sk_Ok_elem _ _ _ _ _ kv Hloop Hkv) as (a & lg & r' & Hstep).
    cbn beta in Hstep. rewrite (proj2 (Nat.ltb_lt _ _) Hscored) in Hstep.
    apply sk_bind_Ok_inv in Hstep as (labels & lg' & Hlab & _).
    apply lift_Ok_inv in Hlab as [Hlab _]. apply getitem_Ok in Hlab. eauto.
  - intros tensors' Hdrug Hcovs. rewrite <- Hrun.
    assert (Hget : ∀ kv, kv ∈ covars_encoder self → (1 < length kv.2)%nat →
              getitem tensors' kv.1 = getitem tensors kv.1).
    { intros kv Hkv Hsc. unfold getitem. by rewrite (Hcovs kv Hkv Hsc). }
    assert (Hstep : ∀ X (a : R) kv (lg : list cv_call),
              kv ∈ covars_encoder self →
              (if (1 <? length kv.2)%nat then
                 target_covars ← lift (getitem tensors' kv.1);
                 s ← cross_val_mean cross_val_score X
                       (numpy_ravel target_covars)
                       (Nat.min 5 (n_unique (numpy_ravel target_covars)));
                 mret (a + s)
               else mret a) lg
              = (if (1 <? length kv.2)%nat then
                   target_covars ← lift (getitem tensors kv.1);
                   s ← cross_val_mean cross_val_score X
                         (numpy_ravel target_covars)
                         (Nat.min 5 (n_unique (numpy_ravel target_covars)));
                   mret (a + s)
                 else mret a) lg).
    { intros X a kv lg Hkv. destruct (1 <? length kv.2)%nat eqn:Hsc;
        [|reflexivity].
      by rewrite (Hget kv Hkv (proj1 (Nat.ltb_lt _ _) Hsc)). }
    unfold disentanglement.
    apply sk_bind_ext; [unfold getitem; by rewrite Hdrug|].
    intros dn lg1. apply sk_bind_ext; [reflexivity|].
    intros s0 lg2. apply sk_bind_ext.
    { apply foldM_sk_ext. intros a kv lg Hkv. by apply Hstep. }
    intros s1 lg3. apply sk_bind_ext; [reflexivity|].
    intros s2 lg4. apply sk_bind_ext; [|reflexivity].
    apply foldM_sk_ext. intros a kv lg Hkv. by apply Hstep.
Qed.

(** X24: when no covariate has more than one category, [disentanglement]
    needs the perturbation labels only: it requests a fit on the basal
    code with [min(5, number of labels)] folds and then a fit on the
    combined latent with 5 folds, and it returns their mean fold scores
    or raises what the first failing fit raises. *)
Theorem disentanglement_unscored_covariates self
    (tensors : gmap string tensor) (io : inference_outputs)
    (log : list cv_call) (drug_names : tensor) :
  tensors !! "drug_name" = Some drug_names →
  (∀ kv, kv ∈ covars_encoder self → (length kv.2 ≤ 1)%nat) →
  let y := numpy_ravel drug_names in
  let basal := StandardScaler_fit_transform (latent_basal io) in
  let combined := StandardScaler_fit_transform (latent io) in
  disentanglement StandardScaler_fit_transform cross_val_score self tensors io
    log
  = match cross_val_score basal y (Nat.min 5 (n_unique y)) with
    | Ok basal_scores =>
        match cross_val_score combined y 5 with
        | Ok scores =>
            Ok ((Torch.mean_vec basal_scores, Torch.mean_vec scores),
                (log ++ [ {| cv_X := basal; cv_y := y;
                             cv_folds := Nat.min 5 (n_unique y) |};
                          {| cv_X := combined; cv_y := y;
                             cv_folds := 5 |} ])%list)
        | Raise e => Raise e
        end
    | Raise e => Raise e
    end.
Proof.
  intros Hdn Hone y basal combined. unfold disentanglement.
  rewrite (proj2 (getitem_Ok _ _ _) Hdn).
  unfold mbind at 1, sk_bind, lift. unfold mbind at 1, sk_bind, cross_val_mean.
  fold y basal combined.
  destruct (cross_val_score basal y (Nat.min 5 (n_unique y)))
    as [basal_scores|e]; [|reflexivity].
  unfold mbind at 1, sk_bind. rewrite foldM_sk_skip.
  - unfold mbind at 1, sk_bind.
    destruct (cross_val_score combined y 5) as [scores|e]; [|reflexivity].
    unfold mbind at 1, sk_bind. rewrite foldM_sk_skip.
    + unfold mret, sk_ret. by rewrite <- app_assoc.
    + intros a kv lg Hkv.
      rewrite (proj2 (Nat.ltb_ge _ _) (Hone kv Hkv)). reflexivity.
  - intros a kv lg Hkv.
    rewrite (proj2 (Nat.ltb_ge _ _) (Hone kv Hkv)). reflexivity.
Qed.

End DisentanglementLabels.

Lemma disentanglement_reads_scored_labels_witness :
  ∃ self out r,
    CPAModule.__init__ Examples.sub_id 1 2 [("cell_type", ["A"; "B"])] 1
      "gauss" "linear" false = Ok self
    ∧ CPAModule.inference self Examples.genes10 Examples.labels10
        Examples.doses10 (Examples.covars10 "cell_type") = Ok out
    ∧ CPAModule.disentanglement Examples.standard_scaler
        Examples.separating_cv self (Examples.batch10 "X" "cell_type") out []
      = Ok r
    ∧ is_Some (Examples.batch10 "X" "cell_type" !! "drug_name")
    ∧ (∀ kv, kv ∈ CPAModule.covars_encoder self → (1 < length kv.2)%nat →
             is_Some (Examples.batch10 "X" "cell_type" !! kv.1))
    ∧ ∀ tensors' : gmap string tensor,
        tensors' !! "drug_name"
        = Examples.batch10 "X" "cell_type" !! "drug_name" →
        (∀ kv, kv ∈ CPAModule.covars_encoder self → (1 < length kv.2)%nat →
               tensors' !! kv.1 = Examples.batch10 "X" "cell_type" !! kv.1) →
        CPAModule.disentanglement Examples.standard_scaler
          Examples.separating_cv self tensors' out [] = Ok r.
Proof.
  eexists _, _, _.
  split; [reflexivity|].
  split; [reflexivity|].
  match goal with
  | |- ?run = Ok ?r ∧ _ => assert (Hrun : run = Ok r) by reflexivity
  end.
  split; [exact Hrun|].
  exact (disentanglement_reads_scored_labels _ _ _ _ _ _ _ Hrun).
Defined.

Lemma disentanglement_unscored_covariates_witness :
  ∃ self,
    CPAModule.__init__ Examples.sub_id 1 2 [("cell_type", ["A"])] 1 "gauss"
      "linear" false = Ok self
    ∧ ∀ io log,
        let y := numpy_ravel (LongT Examples.labels10) in
        let basal := Examples.standard_scaler (CPAModule.latent_basal io) in
        let combined := Examples.standard_scaler (CPAModule.latent io) in
        CPAModule.disentanglement Examples.standard_scaler
          Examples.separating_cv self
          {["drug_name" := LongT Examples.labels10]} io log
        = match Examples.separating_cv basal y
                  (Nat.min 5 (CPAModule.n_unique y)) with
          | Ok basal_scores =>
              match Examples.separating_cv combined y 5 with
              | Ok scores =>
                  Ok ((Torch.mean_vec basal_scores, Torch.mean_vec scores),
                      (log ++ [ {| CPAModule.cv_X := basal;
                                   CPAModule.cv_y := y;
                                   CPAModule.cv_folds :=
                                     Nat.min 5 (CPAModule.n_unique y) |};
                                {| CPAModule.cv_X := combined;
                                   CPAModule.cv_y := y;
                                   CPAModule.cv_folds := 5 |} ])%list)
              | Raise e => Raise e
              end
          | Raise e => Raise e
          end.
Proof.
  eexists. split; [reflexivity|]. intros io log.
  apply (disentanglement_unscored_covariates Examples.standard_scaler
           Examples.separating_cv).
  - apply lookup_singleton_eq.
  - intros kv Hkv. change (kv ∈ [("cell_type", ["A"])]) in Hkv.
    apply list_elem_of_singleton in Hkv as ->. cbn. lia.
Defined.
